(** * Nginx log watcher for blue/green deployments: a model of [watcher.py]

    The development follows the source file top to bottom: the fragment of
    Python's [re] that the six patterns of [parse_log_line] use, the parser,
    the alert gate [send_slack_alert], the failover tracker [check_failover],
    the sliding window of [check_error_rate], and the body of the loop of
    [tail_log_file].  Module-level globals of the script ([last_pool],
    [request_window], [last_alert_times]) are threaded explicitly; the clock
    ([datetime.now()]) and the outcome of [requests.post] are inputs.

    Characters are those of [Ascii.ascii]; the character classes are
    Python's restricted to the ASCII range (code points below 128), where
    [\w], [\d] and [\s] of a [str] pattern are what [Re.word], [Re.digit]
    and [Re.space] are.  Outside that range Python's classes follow the
    Unicode tables; the statements about the text of a line are therefore
    made for the lines of ASCII characters, [ascii_line]. *)

From Stdlib Require Import ZArith NArith Ascii String List Bool Lia.
From Stdlib Require Import Floats.
From stdpp Require Import gmap strings list fin_maps.

Import ListNotations.
Local Open Scope string_scope.
Local Open Scope Z_scope.

(** ** Exceptions and results *)

(** The exceptions the modelled code can raise. *)
Inductive exn : Type :=
| ValueError
| ZeroDivisionError.

(** ** Python's [re], as far as the patterns of the script go *)

Module Re.

(** A character class is a predicate on characters. *)
Definition cls : Type := ascii -> bool.

Definition between (lo hi : ascii) : cls :=
  fun c => (N_of_ascii lo <=? N_of_ascii c)%N && (N_of_ascii c <=? N_of_ascii hi)%N.

Definition chr (a : ascii) : cls := fun c => Ascii.eqb a c.

Definition alt (p q : cls) : cls := fun c => p c || q c.

(** [\d] *)
Definition digit : cls := between "0" "9".

(** [[A-Z]] *)
Definition upper : cls := between "A" "Z".

(** [\w]: letters, digits and the underscore. *)
Definition word : cls :=
  alt (between "a" "z") (alt upper (alt digit (chr "_"))).

(** [\s]: space, [\t \n \v \f \r], and the separators 28 to 31, which
    Python's [str] patterns count as white space. *)
Definition space : cls :=
  alt (chr " ") (alt (between "009" "013") (between "028" "031")).

(** The double quote, by its code. *)
Definition dquote : ascii := "034"%char.

(** The negated class of the status pattern: any character but the
    double quote. *)
Definition not_dquote : cls := fun c => negb (Ascii.eqb dquote c).

(** The patterns are sequences of three kinds of items: a literal string,
    a greedy [p+] over a class, and the capturing group [(p+)]. *)
Inductive item : Type :=
| Lit (l : string)
| Plus (p : cls)
| Group (p : cls).

Definition regex : Type := list item.

(** [lit l s] strips the literal [l] from the front of [s]. *)
Fixpoint lit (l s : string) : option string :=
  match l with
  | EmptyString => Some s
  | String a l' =>
      match s with
      | String c s' => if Ascii.eqb a c then lit l' s' else None
      | EmptyString => None
      end
  end.

(** Greedy repetition with backtracking: [greedy p k acc s] has consumed
    [acc]; it first tries to consume one more character of the class, and
    falls back to the continuation [k] on what it has when the longer
    attempt fails. *)
Fixpoint greedy (p : cls) (k : string -> string -> option string)
         (acc s : string) : option string :=
  match s with
  | String c s' =>
      if p c then
        match greedy p k (acc ++ String c "") s' with
        | Some g => Some g
        | None => k acc s
        end
      else k acc s
  | EmptyString => k acc s
  end.

(** [p+]: one character of the class, then [p*]. *)
Definition plus (p : cls) (k : string -> string -> option string)
           (s : string) : option string :=
  match s with
  | String c s' => if p c then greedy p k (String c "") s' else None
  | EmptyString => None
  end.

(** [match_here re g s]: match [re] at the front of [s]; [g] is the text of
    group 1 so far, and the result is group 1 of the match. *)
Fixpoint match_here (re : regex) (g s : string) : option string :=
  match re with
  | [] => Some g
  | Lit l :: re' =>
      match lit l s with
      | Some s' => match_here re' g s'
      | None => None
      end
  | Plus p :: re' => plus p (fun _ s' => match_here re' g s') s
  | Group p :: re' => plus p (fun g' s' => match_here re' g' s') s
  end.

(** [re.search(re, s)] followed by [.group(1)]: the leftmost start at which
    the pattern matches; [None] when there is no match. *)
Fixpoint search (re : regex) (s : string) : option string :=
  match match_here re "" s with
  | Some g => Some g
  | None =>
      match s with
      | String _ s' => search re s'
      | EmptyString => None
      end
  end.

End Re.

(** The six patterns of [parse_log_line], in source order. *)

(** [r'pool=(\w+)'] *)
Definition pool_re : Re.regex := [Re.Lit "pool="; Re.Group Re.word].

(** [r'release=([\w\-\.]+)'] *)
Definition release_re : Re.regex :=
  [Re.Lit "release="; Re.Group (Re.alt Re.word (Re.alt (Re.chr "-") (Re.chr ".")))].

(** [r'upstream_status=(\d+)'] *)
Definition upstream_status_re : Re.regex :=
  [Re.Lit "upstream_status="; Re.Group Re.digit].

(** The status pattern: a double quote, [[A-Z]+], [\s+], one or more
    characters other than the double quote, a double quote, [\s+] and the
    group [(\d+)]. *)
Definition status_re : Re.regex :=
  [Re.Lit (String Re.dquote ""); Re.Plus Re.upper; Re.Plus Re.space;
   Re.Plus Re.not_dquote; Re.Lit (String Re.dquote ""); Re.Plus Re.space;
   Re.Group Re.digit].

(** [r'upstream=([\d\.:]+)'] *)
Definition upstream_re : Re.regex :=
  [Re.Lit "upstream="; Re.Group (Re.alt Re.digit (Re.alt (Re.chr ".") (Re.chr ":")))].

(** [r'request_time=([\d\.]+)'] *)
Definition request_time_re : Re.regex :=
  [Re.Lit "request_time="; Re.Group (Re.alt Re.digit (Re.chr "."))].

(** ** Conversions: [int] and [float] on the captured text *)

(** The value of a decimal digit. *)
Definition digit_value (c : ascii) : Z := Z.of_N (N_of_ascii c) - 48.

(** The number a string of decimal digits denotes, most significant first. *)
Fixpoint digits_value (acc : Z) (s : string) : Z :=
  match s with
  | EmptyString => acc
  | String c s' => digits_value (10 * acc + digit_value c) s'
  end.

Fixpoint all_in (p : Re.cls) (s : string) : bool :=
  match s with
  | EmptyString => true
  | String c s' => p c && all_in p s'
  end.

(** [int(s)] on a text of digits, which is all a [(\d+)] group can capture.
    On a non-empty string of digits the conversion gives the number, except
    that CPython (3.11 and later) refuses a string of more than
    [sys.get_int_max_str_digits()] digits with a [ValueError];
    [int_max_str_digits] is that limit, 4300 unless configured, and 0 when
    there is none.  Any other text, which the parser never passes, is
    answered with [None]. *)
Definition py_int (int_max_str_digits : nat) (s : string) : option Z :=
  if negb (all_in Re.digit s) || (String.length s =? 0)%nat then None
  else if (0 <? int_max_str_digits)%nat && (int_max_str_digits <? String.length s)%nat
       then None
       else Some (digits_value 0 s).

(** A decimal numeral [dec_digits / 10 ^ dec_scale]: the exact number that a
    text of digits with one dot denotes.  [float] returns the double nearest
    to it, and infinity beyond the range of the doubles; the model keeps the
    numeral that [float] is given, and no statement is made about the double
    other than through that numeral. *)
Record decimal : Type := Decimal { dec_digits : Z; dec_scale : nat }.

(** [s] split at its first dot: the text before it, and the text after it
    when there is a dot. *)
Fixpoint split_dot (s : string) : string * option string :=
  match s with
  | EmptyString => (EmptyString, None)
  | String c s' =>
      if Ascii.eqb c "." then (EmptyString, Some s')
      else let '(a, b) := split_dot s' in (String c a, b)
  end.

(** [float(s)] on a text of digits and dots, which is all the pattern of
    [request_time] can capture: digits with at most one dot, and at least
    one digit; anything else is a [ValueError]. *)
Definition py_float (s : string) : option decimal :=
  let '(a, b) := split_dot s in
  let f := match b with Some f => f | None => EmptyString end in
  if all_in Re.digit a && all_in Re.digit f
     && negb ((String.length a + String.length f =? 0)%nat)
  then Some (Decimal (digits_value 0 (a ++ f)) (String.length f))
  else None.

(** ** [parse_log_line] *)

(** The dictionary that [parse_log_line] returns.  [timestamp] is the
    reading of [datetime.now()], in microseconds. *)
Record record : Type := Record_ {
  pool : string;
  release : string;
  status : Z;
  upstream_status : Z;
  upstream : string;
  request_time : decimal;
  is_5xx : bool;
  timestamp : Z
}.

(** [m.group(1) if m else d] *)
Definition group_or (d : string) (m : option string) : string :=
  match m with Some g => g | None => d end.

(** [conv(m.group(1)) if m else d], where the conversion may raise. *)
Definition convert_or {A : Type} (conv : string -> option A) (d : A)
           (m : option string) : option A :=
  match m with Some g => conv g | None => Some d end.

Section Parser.

(** The interpreter's limit on the digits of an integer string. *)
Variable int_max_str_digits : nat.

(** The body of the [try]; an exception of a conversion is [None], which
    is also what the [except] clause returns. *)
Definition parse_log_line (now : Z) (line : string) : option record :=
  let pool := group_or "unknown" (Re.search pool_re line) in
  let release := group_or "unknown" (Re.search release_re line) in
  upstream_status ←
    convert_or (py_int int_max_str_digits) 0 (Re.search upstream_status_re line);
  status ← convert_or (py_int int_max_str_digits) 0 (Re.search status_re line);
  let upstream := group_or "unknown" (Re.search upstream_re line) in
  request_time ←
    convert_or py_float (Decimal 0 0) (Re.search request_time_re line);
  Some {| pool := pool;
          release := release;
          status := status;
          upstream_status := upstream_status;
          upstream := upstream;
          request_time := request_time;
          is_5xx := (500 <=? status) || (500 <=? upstream_status);
          timestamp := now |}.

End Parser.

(** ** Configuration and state *)

(** The module-level constants read from the environment.  [WINDOW_SIZE] is
    a natural number: [deque(maxlen=...)] refuses a negative one when the
    module is loaded. *)
Record config : Type := Config {
  SLACK_WEBHOOK_URL : option string;
  ERROR_RATE_THRESHOLD : float;
  WINDOW_SIZE : nat;
  ALERT_COOLDOWN_SEC : Z;
  MAINTENANCE_MODE : bool
}.

(** [last_alert_times]: a dictionary from alert type to [None] or the time
    of the last alert, in microseconds. *)
Abbreviation alert_times := (gmap string (option Z)).

(** The three globals under [# State tracking]. *)
Record state : Type := State {
  last_pool : option string;
  request_window : list record;
  last_alert_times : alert_times
}.

Definition initial_alert_times : alert_times :=
  <["failover" := None]> (<["error_rate" := None]> ∅).

Definition initial_state : state :=
  {| last_pool := None; request_window := []; last_alert_times := initial_alert_times |}.

(** What the two checks interpolate into their messages. *)
Inductive message : Type :=
| FailoverDetected (from to rel ups : string) (time : Z)
| HighErrorRate (error_rate threshold : float) (error_count total : nat)
                (current_pool : string) (window_size : nat).

(** ** [send_slack_alert] *)

(** What [requests.post] and [raise_for_status] come to: the alert is
    delivered, and [datetime.now()] read after it is [done]; or one of them
    raises and the [except] clause reports it. *)
Inductive delivery : Type :=
| Delivered (done : Z)
| Failed.

(** What one call of [send_slack_alert] finds outside: the clock at the
    cooldown check and the fate of the request. *)
Record world : Type := World { now : Z; post : delivery }.

(** The four ways out of [send_slack_alert], by the line it prints. *)
Inductive outcome : Type :=
| Suppressed (maintenance : bool)
| InCooldown (time_since_last : Z)
| Sent
| SendFailed.

(** Truth value of [SLACK_WEBHOOK_URL]: [None] and the empty string are
    false. *)
Definition truthy (u : option string) : bool :=
  match u with
  | Some (String _ _) => true
  | _ => false
  end.

(** [d.get(k)]: [None] for a missing key. *)
Definition dict_get (d : alert_times) (k : string) : option Z :=
  match d !! k with
  | Some v => v
  | None => None
  end.

(** [colors.get(alert_type, '#808080')] *)
Definition color (alert_type : string) : string :=
  if String.eqb alert_type "failover" then "#FFA500"
  else if String.eqb alert_type "error_rate" then "#FF0000"
  else if String.eqb alert_type "recovery" then "#00FF00"
  else if String.eqb alert_type "info" then "#0000FF"
  else "#808080".

Section Watcher.

Variable cfg : config.

(** The [try] block at the end of [send_slack_alert]: the time is recorded
    after [raise_for_status] has returned. *)
Definition deliver (times : alert_times) (alert_type : string) (w : world)
  : outcome * alert_times :=
  match post w with
  | Delivered done => (Sent, <[alert_type := Some done]> times)
  | Failed => (SendFailed, times)
  end.

(** Times are in microseconds and the cooldown in seconds.  The script
    compares [total_seconds()], the difference in microseconds divided by
    [10 ** 6] and rounded to a double, with the integer cooldown; the model
    compares the integers.  The two agree for every difference as long as the
    cooldown is at most [2 ^ 33] seconds in size: two times differ by a
    microsecond at least, and below [2 ^ 33] the doubles are less than two
    microseconds apart, so no quotient below the cooldown rounds up to it.
    The statements about the cooldown test assume that range,
    [cooldown_in_range]. *)
Definition send_slack_alert (times : alert_times) (msg : message)
           (alert_type : string) (w : world) : outcome * alert_times :=
  if negb (truthy (SLACK_WEBHOOK_URL cfg)) || MAINTENANCE_MODE cfg
  then (Suppressed (MAINTENANCE_MODE cfg), times)
  else
    match dict_get times alert_type with
    | Some last =>
        let time_since_last := now w - last in
        if time_since_last <? ALERT_COOLDOWN_SEC cfg * 1000000
        then (InCooldown time_since_last, times)
        else deliver times alert_type w
    | None => deliver times alert_type w
    end.

(** ** [check_failover] *)

(** The three things [check_failover] can do: nothing, print the initial
    pool, or raise a failover alert. *)
Inductive observation : Type :=
| NoChange
| Initialized (p : string)
| Failover (msg : message) (o : outcome).

Definition check_failover (lp : option string) (times : alert_times)
           (parsed_data : record) (w : world)
  : option string * alert_times * observation :=
  let current_pool := pool parsed_data in
  if String.eqb current_pool "unknown" then (lp, times, NoChange)
  else
    match lp with
    | None => (Some current_pool, times, Initialized current_pool)
    | Some p =>
        if negb (String.eqb current_pool p) then
          let msg := FailoverDetected p current_pool (release parsed_data)
                       (upstream parsed_data) (timestamp parsed_data) in
          let '(o, times') := send_slack_alert times msg "failover" w in
          (Some current_pool, times', Failover msg o)
        else (lp, times, NoChange)
    end.

(** ** [check_error_rate] *)

(** [deque.append] on a deque with [maxlen]: the item is added on the right
    and, when the deque is then longer than [maxlen], the leftmost item is
    dropped. *)
Definition deque_append {A : Type} (maxlen : nat) (d : list A) (x : A) : list A :=
  let d' := (d ++ [x])%list in
  if (maxlen <? length d')%nat then tail d' else d'.

(** [sum(1 for req in request_window if req['is_5xx'])] *)
Fixpoint count_5xx (d : list record) : nat :=
  match d with
  | [] => 0%nat
  | req :: d' => ((if is_5xx req then 1 else 0) + count_5xx d')%nat
  end.

(** An integer as a double; exact below [2 ^ 53]. *)
Definition float_of_nat (n : nat) : float :=
  PrimFloat.of_uint63 (Uint63.of_Z (Z.of_nat n)).

(** [(error_count / len(request_window)) * 100], in double precision. *)
Definition error_rate_of (error_count total : nat) : float :=
  PrimFloat.mul (PrimFloat.div (float_of_nat error_count) (float_of_nat total))
                (float_of_nat 100).

(** What [check_error_rate] finds: not enough data, or a rate, with the
    alert it raised when the rate is above the threshold. *)
Inductive window_status : Type :=
| InsufficientData
| Rate (error_count total : nat) (rate : float) (alert : option (message * outcome)).

(** The division raises [ZeroDivisionError] on an empty window, which only
    a [WINDOW_SIZE] of zero lets through the length test. *)
Definition check_error_rate (window : list record) (times : alert_times)
           (parsed_data : record) (w : world)
  : list record * alert_times * (exn + window_status) :=
  let window' := deque_append (WINDOW_SIZE cfg) window parsed_data in
  if (length window' <? WINDOW_SIZE cfg)%nat then (window', times, inr InsufficientData)
  else
    let error_count := count_5xx window' in
    if (length window' =? 0)%nat then (window', times, inl ZeroDivisionError)
    else
      let error_rate := error_rate_of error_count (length window') in
      if PrimFloat.ltb (ERROR_RATE_THRESHOLD cfg) error_rate then
        let msg := HighErrorRate error_rate (ERROR_RATE_THRESHOLD cfg) error_count
                     (length window') (pool parsed_data) (WINDOW_SIZE cfg) in
        let '(o, times') := send_slack_alert times msg "error_rate" w in
        (window', times', inr (Rate error_count (length window') error_rate (Some (msg, o))))
      else
        (window', times, inr (Rate error_count (length window') error_rate None)).

(** ** The loop of [tail_log_file] *)

(** What the two checks of one iteration find outside. *)
Record worlds : Type := Worlds { failover_world : world; error_rate_world : world }.

(** One iteration on a parsed line: [check_failover], then
    [check_error_rate]. *)
Definition process_record (st : state) (parsed : record) (ws : worlds)
  : state * observation * (exn + window_status) :=
  let '(lp, times, obs) :=
    check_failover (last_pool st) (last_alert_times st) parsed (failover_world ws) in
  let '(window, times', res) :=
    check_error_rate (request_window st) times parsed (error_rate_world ws) in
  ({| last_pool := lp; request_window := window; last_alert_times := times' |}, obs, res).

(** The iterations over a sequence of parsed lines; an exception that
    nothing catches ends the process, and the state is the one it leaves. *)
Fixpoint process_records (st : state) (inputs : list (record * worlds))
  : state * list (observation * (exn + window_status)) :=
  match inputs with
  | [] => (st, [])
  | (parsed, ws) :: inputs' =>
      let '(st', obs, res) := process_record st parsed ws in
      match res with
      | inl _ => (st', [(obs, res)])
      | inr _ =>
          let '(st'', out) := process_records st' inputs' in
          (st'', (obs, res) :: out)
      end
  end.

End Watcher.

(** ** The loop of [tail_log_file], on the lines read *)

(** One iteration of [while True] on what [f.readline()] returned, with the
    clock [t] that [parse_log_line] reads: an empty read (nothing new in the
    file) and a line that does not parse are passed over; a parsed line, a
    dictionary that is never empty, goes through the two checks. *)
Definition process_line (cfg : config) (int_max_str_digits : nat) (st : state)
           (line : string) (t : Z) (ws : worlds)
  : state * option (observation * (exn + window_status)) :=
  if String.eqb line "" then (st, None)
  else
    match parse_log_line int_max_str_digits t line with
    | Some parsed =>
        let '(st', obs, res) := process_record cfg st parsed ws in
        (st', Some (obs, res))
    | None => (st, None)
    end.

(** The iterations over a sequence of reads, up to an exception that nothing
    catches. *)
Fixpoint process_lines (cfg : config) (int_max_str_digits : nat) (st : state)
         (reads : list (string * Z * worlds))
  : state * list (observation * (exn + window_status)) :=
  match reads with
  | [] => (st, [])
  | (line, t, ws) :: reads' =>
      match process_line cfg int_max_str_digits st line t ws with
      | (st', None) => process_lines cfg int_max_str_digits st' reads'
      | (st', Some (obs, inl e)) => (st', [(obs, inl e)])
      | (st', Some (obs, inr status)) =>
          let '(st'', out) := process_lines cfg int_max_str_digits st' reads' in
          (st'', (obs, inr status) :: out)
      end
  end.

(** ** Vocabulary of the statements *)

(** The marker [key] occurs in [line] followed by a character of the class
    [p]: the token of a [key=...] pattern is present. *)
Definition occurs (key : string) (p : Re.cls) (line : string) : Prop :=
  exists pre c rest, line = pre ++ key ++ String c rest /\ p c = true.

(** The call got past the maintenance and cooldown checks, to the request. *)
Definition permitted (o : outcome) : bool :=
  match o with
  | Sent | SendFailed => true
  | _ => false
  end.

(** The call was stopped by the cooldown check. *)
Definition cooldown_active (o : outcome) : bool :=
  match o with
  | InCooldown _ => true
  | _ => false
  end.

(** The pool the tracker holds after a record: an [unknown] pool leaves it,
    any other pool becomes the current one. *)
Definition next_pool (lp : option string) (r : record) : option string :=
  if String.eqb (pool r) "unknown" then lp else Some (pool r).

(** The iteration ended in an exception. *)
Definition raised {A : Type} (res : exn + A) : bool :=
  match res with
  | inl _ => true
  | inr _ => false
  end.

(** The record is one that [parse_log_line] returns. *)
Definition parsed (r : record) : Prop :=
  exists int_max_str_digits now line,
    parse_log_line int_max_str_digits now line = Some r.

(** A configuration with a webhook, as the examples use it: the defaults of
    the script but for the window size and the threshold. *)
Definition example_config (threshold : float) (window_size : nat) : config :=
  {| SLACK_WEBHOOK_URL := Some "https://hooks.slack.com/services/T0/B0/X0";
     ERROR_RATE_THRESHOLD := threshold;
     WINDOW_SIZE := window_size;
     ALERT_COOLDOWN_SEC := 300;
     MAINTENANCE_MODE := false |}.

(** A record with the given pool and status, the other fields at their
    defaults, as [parse_log_line] builds it. *)
Definition example_record (p : string) (st : Z) : record :=
  {| pool := p; release := "unknown"; status := st; upstream_status := 0;
     upstream := "unknown"; request_time := Decimal 0 0;
     is_5xx := (500 <=? st) || (500 <=? 0); timestamp := 0 |}.

(** One second, in the unit of the clock. *)
Definition seconds (n : Z) : Z := n * 1000000.

(** The line is made of ASCII characters: code points below 128. *)
Definition ascii_line (line : string) : Prop :=
  all_in (fun c => (N_of_ascii c <? 128)%N) line = true.

(** The cooldown is one for which the comparison of [total_seconds()] with
    it is exact: from 0 to [2 ^ 33] seconds. *)
Definition cooldown_in_range (cfg : config) : Prop :=
  0 <= ALERT_COOLDOWN_SEC cfg <= 2 ^ 33.


(** The record of a read that reaches the two checks. *)
Definition parsed_read (int_max_str_digits : nat) (rd : string * Z * worlds)
  : option (record * worlds) :=
  let '(line, t, ws) := rd in
  if String.eqb line "" then None
  else
    match parse_log_line int_max_str_digits t line with
    | Some parsed => Some (parsed, ws)
    | None => None
    end.

(** The pools of the records that name one. *)
Definition known_pools (rs : list record) : list string :=
  filter (fun p => p <> "unknown") (map pool rs).

(** The changes of pool in a sequence of known pools, seen from a tracker
    that holds [lp]: each pool that differs from the one before it, with that
    one. *)
Fixpoint transitions (lp : option string) (ps : list string) : list (string * string) :=
  match ps with
  | [] => []
  | q :: ps' =>
      match lp with
      | Some p =>
          if String.eqb q p then transitions (Some q) ps'
          else (p, q) :: transitions (Some q) ps'
      | None => transitions (Some q) ps'
      end
  end.

(** The pools of a failover alert: from and to. *)
Definition failover_of (o : observation) : option (string * string) :=
  match o with
  | Failover (FailoverDetected p q _ _ _) _ => Some (p, q)
  | _ => None
  end.

(** The observation is a failover alert that was delivered. *)
Definition failover_sent (o : observation) : bool :=
  match o with
  | Failover _ Sent => true
  | _ => false
  end.

(** The status carries an error-rate alert that was delivered. *)
Definition error_rate_sent (res : exn + window_status) : bool :=
  match res with
  | inr (Rate _ _ _ (Some (_, Sent))) => true
  | _ => false
  end.

(** The request of a world, when it succeeds, ends after the cooldown check
    read the clock. *)
Definition clock_runs_on (w : world) : Prop :=
  forall done, post w = Delivered done -> now w <= done.

(** The observation is a failover alert. *)
Definition is_failover (o : observation) : bool :=
  match o with
  | Failover _ _ => true
  | _ => false
  end.

(** The status carries an alert. *)
Definition has_alert (res : exn + window_status) : bool :=
  match res with
  | inr (Rate _ _ _ (Some _)) => true
  | _ => false
  end.

(** * Properties *)

(** ** The matcher *)

Module ReFacts.
Import Re.

(** [String.append] does not unfold under [simpl]; its two equations. *)
Lemma append_cons (c : ascii) (s t : string) : String c s ++ t = String c (s ++ t).
Proof. reflexivity. Qed.

Lemma append_nil_l (t : string) : "" ++ t = t.
Proof. reflexivity. Qed.

Lemma append_nil_r (s : string) : s ++ "" = s.
Proof.
  induction s as [|c s IH]; [reflexivity |].
  now rewrite append_cons, IH.
Qed.

Lemma append_assoc (a b c : string) : (a ++ b) ++ c = a ++ (b ++ c).
Proof.
  induction a as [|x a IH]; [reflexivity |].
  now rewrite !append_cons, IH.
Qed.

Lemma all_in_app (p : cls) (a b : string) :
  all_in p (a ++ b) = all_in p a && all_in p b.
Proof.
  induction a as [|x a IH]; [reflexivity |].
  rewrite append_cons. simpl. rewrite IH. now rewrite andb_assoc.
Qed.

(** A successful greedy repetition consumed some run of the class and
    handed what it had, and the rest, to its continuation. *)
Lemma greedy_some p k acc s r :
  greedy p k acc s = Some r ->
  exists pre rest,
    s = pre ++ rest /\ all_in p pre = true /\ k (acc ++ pre) rest = Some r.
Proof.
  revert acc. induction s as [|c s IH]; intros acc H; simpl in H.
  - exists "", "". rewrite (append_nil_r acc). now repeat split.
  - destruct (p c) eqn:Hc.
    + destruct (greedy p k (acc ++ String c "") s) as [g|] eqn:Hg.
      * injection H as ->.
        destruct (IH _ Hg) as (pre & rest & -> & Hall & Hk).
        exists (String c pre), rest. simpl. rewrite Hc, Hall.
        rewrite append_assoc in Hk. now rewrite append_cons.
      * exists "", (String c s). rewrite (append_nil_r acc). now repeat split.
    + exists "", (String c s). rewrite (append_nil_r acc). now repeat split.
Qed.

Lemma plus_some p k s r :
  plus p k s = Some r ->
  exists pre rest,
    s = pre ++ rest /\ all_in p pre = true /\ pre <> "" /\ k pre rest = Some r.
Proof.
  unfold plus. destruct s as [|c s]; [discriminate |].
  destruct (p c) eqn:Hc; [| discriminate].
  intros H. destruct (greedy_some _ _ _ _ _ H) as (pre & rest & -> & Hall & Hk).
  exists (String c pre), rest. simpl. rewrite Hc, Hall. repeat split; [discriminate | exact Hk].
Qed.

(** Group 1 of a match is the text of a capturing group of the pattern: a
    non-empty run of that group's class. *)
Lemma match_here_group re g s tok :
  match_here re g s = Some tok ->
  (tok = g /\ forall p, ~ In (Group p) re) \/
  (exists p, In (Group p) re /\ all_in p tok = true /\ tok <> "").
Proof.
  revert g s. induction re as [|[l|p|p] re IH]; intros g s H; simpl in H.
  - left. split; [congruence | intros p []].
  - destruct (lit l s) as [s'|]; [| discriminate].
    destruct (IH _ _ H) as [[-> Hno] | (p & Hin & Hp)].
    + left. split; [reflexivity |]. intros p [Hp | Hp]; [discriminate | exact (Hno p Hp)].
    + right. exists p. split; [now right | exact Hp].
  - destruct (plus_some _ _ _ _ H) as (pre & rest & _ & _ & _ & Hk).
    destruct (IH _ _ Hk) as [[-> Hno] | (p' & Hin & Hp)].
    + left. split; [reflexivity |]. intros p' [Hp | Hp]; [discriminate | exact (Hno p' Hp)].
    + right. exists p'. split; [now right | exact Hp].
  - destruct (plus_some _ _ _ _ H) as (pre & rest & _ & Hall & Hne & Hk).
    destruct (IH _ _ Hk) as [[-> Hno] | (p' & Hin & Hp)].
    + right. exists p. split; [now left | now split].
    + right. exists p'. split; [now right | exact Hp].
Qed.

(** A hit of [search] is a match at some suffix of the line. *)
Lemma search_some re s tok :
  search re s = Some tok ->
  exists pre suf, s = pre ++ suf /\ match_here re "" suf = Some tok.
Proof.
  induction s as [|c s IH]; simpl; intros H.
  - destruct (match_here re "" "") eqn:Hm; [| discriminate].
    exists "", "". split; [reflexivity | congruence].
  - destruct (match_here re "" (String c s)) eqn:Hm.
    + exists "", (String c s). split; [reflexivity | congruence].
    + destruct (IH H) as (pre & suf & -> & Hs).
      exists (String c pre), suf. now split.
Qed.

(** For a pattern whose only group is its last item, the hit is a non-empty
    run of the group's class. *)
Lemma search_token (items : regex) p s tok :
  (forall p', ~ In (Group p') items) ->
  search (items ++ [Group p])%list s = Some tok ->
  all_in p tok = true /\ tok <> "".
Proof.
  intros Hno H. destruct (search_some _ _ _ H) as (pre & suf & _ & Hm).
  destruct (match_here_group _ _ _ _ Hm) as [[_ Hno'] | (p' & Hin & Hp)].
  - exfalso. apply (Hno' p). apply in_or_app. right. now left.
  - apply in_app_or in Hin. destruct Hin as [Hin | [Heq | []]].
    + now apply Hno in Hin.
    + injection Heq as ->. exact Hp.
Qed.

Lemma lit_some l s rest : lit l s = Some rest <-> s = l ++ rest.
Proof.
  revert s. induction l as [|a l IH]; intros s; simpl.
  - rewrite append_nil_l. split; congruence.
  - rewrite append_cons. destruct s as [|c s]; [split; discriminate |].
    destruct (Ascii.eqb_spec a c) as [-> | Hne].
    + rewrite IH. split; [now intros -> | congruence].
    + split; [discriminate | congruence].
Qed.

(** A repetition whose continuation accepts everything succeeds. *)
Lemma greedy_total p k acc s :
  (forall a b, k a b <> None) -> greedy p k acc s <> None.
Proof.
  intros Hk. revert acc. induction s as [|c s IH]; intros acc; simpl; [apply Hk |].
  destruct (p c); [| apply Hk].
  destruct (greedy p k (acc ++ String c "") s) eqn:Hg; [discriminate |].
  now apply IH in Hg.
Qed.

(** A [key=(p+)] pattern fails at a position exactly when the marker is not
    there or no character of the class follows it. *)
Lemma match_key_none key p s :
  match_here [Lit key; Group p] "" s = None <->
  (forall c rest, s = key ++ String c rest -> p c = false).
Proof.
  simpl. split.
  - intros H c rest ->.
    destruct (lit key (key ++ String c rest)) as [s'|] eqn:Hl.
    + apply lit_some in Hl. apply String.app_inj in Hl. subst s'.
      unfold plus in H. destruct (p c) eqn:Hc; [| reflexivity].
      exfalso. revert H. apply greedy_total. discriminate.
    + assert (Hs : lit key (key ++ String c rest) = Some (String c rest))
        by now apply lit_some.
      congruence.
  - intros H. destruct (lit key s) as [s'|] eqn:Hl; [| reflexivity].
    apply lit_some in Hl. unfold plus. destruct s' as [|c s']; [reflexivity |].
    now rewrite (H _ _ Hl).
Qed.

Lemma search_none re s :
  search re s = None <->
  (forall pre suf, s = pre ++ suf -> match_here re "" suf = None).
Proof.
  induction s as [|c s IH]; simpl.
  - split.
    + intros H pre suf Hs. destruct pre; [| discriminate].
      rewrite append_nil_l in Hs. subst suf.
      now destruct (match_here re "" "").
    + intros H. now rewrite (H "" "" eq_refl).
  - split.
    + intros H pre suf Hs.
      destruct (match_here re "" (String c s)) eqn:Hm; [discriminate |].
      destruct pre as [|x pre].
      * rewrite append_nil_l in Hs. now subst suf.
      * rewrite append_cons in Hs. injection Hs as _ Hs.
        now apply (proj1 IH H pre suf).
    + intros H. rewrite (H "" (String c s) eq_refl).
      apply IH. intros pre suf ->. now apply (H (String c pre) suf).
Qed.

(** [re.search] on a [key=(p+)] pattern finds nothing exactly when the token
    does not occur. *)
Lemma search_key_none key p line :
  search [Lit key; Group p] line = None <-> ~ occurs key p line.
Proof.
  rewrite search_none. split.
  - intros H (pre & c & rest & Hl & Hc).
    specialize (H pre _ Hl). rewrite match_key_none in H.
    rewrite (H c rest eq_refl) in Hc. discriminate.
  - intros H pre suf Hl. apply match_key_none. intros c rest ->.
    destruct (p c) eqn:Hc; [| reflexivity].
    exfalso. apply H. now exists pre, c, rest.
Qed.

End ReFacts.

(** ** [parse_log_line] *)

Section ParserFacts.

Variable int_max_str_digits : nat.



End ParserFacts.




(** ** [send_slack_alert] *)

Section GateFacts.

Variable cfg : config.

Lemma deliver_spec (times : alert_times) ty w :
  (exists done, post w = Delivered done /\
     deliver times ty w = (Sent, <[ty := Some done]> times)) \/
  (post w = Failed /\ deliver times ty w = (SendFailed, times)).
Proof.
  unfold deliver. destruct (post w) as [done|]; [left; now exists done | now right].
Qed.

(** Only a delivered alert changes the dictionary: every other way out
    leaves it as it was. *)
Lemma send_slack_alert_times (times : alert_times) msg ty w :
  (exists done, post w = Delivered done /\
     send_slack_alert cfg times msg ty w = (Sent, <[ty := Some done]> times)) \/
  (fst (send_slack_alert cfg times msg ty w) <> Sent /\
   snd (send_slack_alert cfg times msg ty w) = times).
Proof.
  unfold send_slack_alert.
  destruct (negb (truthy (SLACK_WEBHOOK_URL cfg)) || MAINTENANCE_MODE cfg);
    [right; now split |].
  destruct (dict_get times ty) as [last|].
  - destruct (now w - last <? ALERT_COOLDOWN_SEC cfg * 1000000); [right; now split |].
    destruct (deliver_spec times ty w) as [(done & Hp & ->) | [Hp ->]];
      [left; now exists done | right; now split].
  - destruct (deliver_spec times ty w) as [(done & Hp & ->) | [Hp ->]];
      [left; now exists done | right; now split].
Qed.

(** With the checks passed, the call goes to the request. *)
Lemma send_slack_alert_open (times : alert_times) msg ty w :
  truthy (SLACK_WEBHOOK_URL cfg) = true ->
  MAINTENANCE_MODE cfg = false ->
  send_slack_alert cfg times msg ty w =
    match dict_get times ty with
    | Some last =>
        if now w - last <? ALERT_COOLDOWN_SEC cfg * 1000000
        then (InCooldown (now w - last), times)
        else deliver times ty w
    | None => deliver times ty w
    end.
Proof. intros Hu Hm. unfold send_slack_alert. now rewrite Hu, Hm. Qed.

Lemma deliver_permitted (times : alert_times) ty w :
  permitted (fst (deliver times ty w)) = true /\
  cooldown_active (fst (deliver times ty w)) = false.
Proof. unfold deliver. now destruct (post w). Qed.

Lemma dict_get_insert (times : alert_times) ty v :
  dict_get (<[ty := v]> times) ty = v.
Proof. unfold dict_get. now rewrite lookup_insert_eq. Qed.

End GateFacts.

(** C1, as amended.  The time of an alert is recorded only when the request
    succeeds, and it is the clock read after the request: a call that passes
    the maintenance and cooldown checks either delivers, and records that
    time for its alert type, or fails to deliver, and leaves the dictionary as
    it was; a suppressed call leaves it as it was too. *)
Theorem send_slack_alert_records_deliveries (cfg : config) (times : alert_times)
        (msg : message) (alert_type : string) (w : world) :
  let r := send_slack_alert cfg times msg alert_type w in
  (permitted (fst r) = true ->
   (exists done, post w = Delivered done /\ fst r = Sent /\
                 snd r = <[alert_type := Some done]> times) \/
   (post w = Failed /\ fst r = SendFailed /\ snd r = times)) /\
  (permitted (fst r) = false -> snd r = times) /\
  (post w = Failed -> snd r = times).
Proof.
  intros r. subst r.
  destruct (send_slack_alert_times cfg times msg alert_type w)
    as [(done & Hp & ->) | [Hne Heq]]; simpl.
  - split; [intros _; left; now exists done |].
    split; [discriminate | congruence].
  - repeat split; try (intros _; exact Heq).
    intros Hperm. right.
    destruct (fst (send_slack_alert cfg times msg alert_type w)) eqn:Ho;
      try discriminate; [congruence |].
    repeat split; [| exact Heq].
    revert Ho. unfold send_slack_alert.
    destruct (negb (truthy (SLACK_WEBHOOK_URL cfg)) || MAINTENANCE_MODE cfg);
      [discriminate |].
    unfold deliver.
    destruct (dict_get times alert_type) as [last|];
      [destruct (now w - last <? ALERT_COOLDOWN_SEC cfg * 1000000); [discriminate |] |];
      now destruct (post w).
Qed.

(** C1, as stated, fails: the first alert of a type passes both checks, the
    request fails, and no time is recorded; the next call, 100 seconds later
    and well within the cooldown of 300, is not held back. *)
Lemma failed_delivery_leaves_no_timestamp :
  let cfg := example_config 2 200 in
  let msg := FailoverDetected "blue" "green" "unknown" "unknown" 0 in
  let first := send_slack_alert cfg initial_alert_times msg "failover" (World 0 Failed) in
  first = (SendFailed, initial_alert_times) /\
  dict_get (snd first) "failover" = None /\
  fst (send_slack_alert cfg (snd first) msg "failover"
         (World (seconds 100) (Delivered (seconds 100)))) = Sent.
Proof. vm_compute. repeat split. Qed.

(** C7, as amended.  With a webhook configured, maintenance mode off and a
    cooldown from 0 to [2 ^ 33] seconds, for which the comparison that the
    script makes in double precision is that of the integers: a
    call for an alert type with a recorded time is stopped by the cooldown
    exactly when less than the cooldown has passed since that time, and goes
    to the request otherwise; a call for a type without a recorded time goes
    to the request; and of two consecutive calls for one type, when the first
    was delivered (which is what records its time), the second is stopped
    within the cooldown of that time and goes to the request after it. *)
Theorem cooldown_after_delivery (cfg : config) (times : alert_times)
        (msg : message) (alert_type : string) (w : world) :
  truthy (SLACK_WEBHOOK_URL cfg) = true ->
  MAINTENANCE_MODE cfg = false ->
  cooldown_in_range cfg ->
  let first := send_slack_alert cfg times msg alert_type w in
  (forall last, dict_get times alert_type = Some last ->
     (cooldown_active (fst first) = true <->
      now w - last < seconds (ALERT_COOLDOWN_SEC cfg)) /\
     (now w - last < seconds (ALERT_COOLDOWN_SEC cfg) ->
      first = (InCooldown (now w - last), times)) /\
     (seconds (ALERT_COOLDOWN_SEC cfg) <= now w - last ->
      permitted (fst first) = true)) /\
  (dict_get times alert_type = None -> permitted (fst first) = true) /\
  (forall done msg2 w2,
     fst first = Sent -> post w = Delivered done ->
     let second := send_slack_alert cfg (snd first) msg2 alert_type w2 in
     (now w2 - done < seconds (ALERT_COOLDOWN_SEC cfg) ->
      second = (InCooldown (now w2 - done), snd first)) /\
     (seconds (ALERT_COOLDOWN_SEC cfg) <= now w2 - done ->
      permitted (fst second) = true)).
Proof.
  intros Hu Hm _ first. subst first. unfold seconds.
  assert (Hgate : forall t m w' last,
            dict_get t alert_type = Some last ->
            (cooldown_active (fst (send_slack_alert cfg t m alert_type w')) = true <->
             now w' - last < ALERT_COOLDOWN_SEC cfg * 1000000) /\
            (now w' - last < ALERT_COOLDOWN_SEC cfg * 1000000 ->
             send_slack_alert cfg t m alert_type w' = (InCooldown (now w' - last), t)) /\
            (ALERT_COOLDOWN_SEC cfg * 1000000 <= now w' - last ->
             permitted (fst (send_slack_alert cfg t m alert_type w')) = true)).
  { intros t m w' last Hl. rewrite (send_slack_alert_open cfg t m alert_type w' Hu Hm), Hl.
    destruct (Z.ltb_spec (now w' - last) (ALERT_COOLDOWN_SEC cfg * 1000000)) as [Hlt | Hge].
    - repeat split; try reflexivity; try (intros; assumption); intros; lia.
    - destruct (deliver_permitted t alert_type w') as [Hp Hc].
      repeat split; try (intros; lia); try (intros _; exact Hp).
      rewrite Hc. discriminate. }
  split; [exact (Hgate times msg w) |].
  split.
  - intros Hnone. rewrite (send_slack_alert_open cfg times msg alert_type w Hu Hm), Hnone.
    apply deliver_permitted.
  - intros done msg2 w2 Hsent Hpost.
    destruct (send_slack_alert_times cfg times msg alert_type w)
      as [(done' & Hp & Heq) | [Hne _]]; [| contradiction].
    assert (done' = done) as -> by congruence.
    rewrite Heq. simpl.
    destruct (Hgate (<[alert_type := Some done]> times) msg2 w2 done
                (dict_get_insert _ _ _)) as (_ & Hin & Hout).
    split; assumption.
Qed.

(** Scenario C of the specification: cooldown 300 seconds; the calls at 0,
    100 and 301 seconds are delivered, stopped, and let through. *)
Lemma cooldown_after_delivery_witness :
  let cfg := example_config 2 200 in
  let msg := HighErrorRate 50 2 100 200 "blue" 200 in
  let first := send_slack_alert cfg initial_alert_times msg "error_rate"
                 (World 0 (Delivered 0)) in
  cooldown_in_range cfg /\
  fst first = Sent /\
  send_slack_alert cfg (snd first) msg "error_rate"
    (World (seconds 100) (Delivered (seconds 100)))
  = (InCooldown (seconds 100), snd first) /\
  permitted (fst (send_slack_alert cfg (snd first) msg "error_rate"
                    (World (seconds 301) (Delivered (seconds 301))))) = true.
Proof.
  intros cfg msg first.
  assert (Hrange : cooldown_in_range cfg) by (vm_compute; split; discriminate).
  pose proof (cooldown_after_delivery cfg initial_alert_times msg "error_rate"
                (World 0 (Delivered 0)) eq_refl eq_refl Hrange) as (_ & _ & H).
  split; [exact Hrange |]. split; [reflexivity |]. split.
  - apply (H 0 msg (World (seconds 100) (Delivered (seconds 100))));
      [reflexivity | reflexivity | vm_compute; reflexivity].
  - apply (H 0 msg (World (seconds 301) (Delivered (seconds 301))));
      [reflexivity | reflexivity | vm_compute; discriminate].
Defined.

(** C7, as stated, fails: the first call passes both checks but its request
    fails, so nothing is recorded, and the second call for the same type,
    100 seconds later with a cooldown of 300, is let through as well. *)
Lemma no_cooldown_after_failed_delivery :
  let cfg := example_config 2 200 in
  let msg := HighErrorRate 50 2 100 200 "blue" 200 in
  let first := send_slack_alert cfg initial_alert_times msg "error_rate"
                 (World 0 Failed) in
  permitted (fst first) = true /\
  cooldown_active
    (fst (send_slack_alert cfg (snd first) msg "error_rate"
            (World (seconds 100) (Delivered (seconds 100))))) = false /\
  permitted
    (fst (send_slack_alert cfg (snd first) msg "error_rate"
            (World (seconds 100) (Delivered (seconds 100))))) = true.
Proof. vm_compute. repeat split. Qed.

(** C8.  In maintenance mode every call is suppressed at the first test of
    [send_slack_alert], whatever the alert type, the message, the clock, the
    recorded times and the webhook: the cooldown is not looked at, no request
    is made and nothing is recorded. *)
Theorem maintenance_suppresses_all (cfg : config) (times : alert_times)
        (msg : message) (alert_type : string) (w : world) :
  MAINTENANCE_MODE cfg = true ->
  send_slack_alert cfg times msg alert_type w = (Suppressed true, times).
Proof.
  intros Hm. unfold send_slack_alert. rewrite Hm, orb_true_r. reflexivity.
Qed.

(** The first call for a type, and a call within a running cooldown, both in
    maintenance mode. *)
Lemma maintenance_suppresses_all_witness :
  let cfg := {| SLACK_WEBHOOK_URL := Some "https://hooks.slack.com/services/T0/B0/X0";
                ERROR_RATE_THRESHOLD := 2; WINDOW_SIZE := 200;
                ALERT_COOLDOWN_SEC := 300; MAINTENANCE_MODE := true |} in
  let msg := FailoverDetected "blue" "green" "unknown" "unknown" 0 in
  let running := <["failover" := Some 0]> initial_alert_times in
  MAINTENANCE_MODE cfg = true /\
  send_slack_alert cfg initial_alert_times msg "failover" (World 0 (Delivered 0))
  = (Suppressed true, initial_alert_times) /\
  send_slack_alert cfg running msg "failover" (World (seconds 100) (Delivered (seconds 100)))
  = (Suppressed true, running).
Proof.
  intros cfg msg running. split; [reflexivity |]. split.
  - apply (maintenance_suppresses_all cfg initial_alert_times msg "failover"
             (World 0 (Delivered 0))). reflexivity.
  - apply (maintenance_suppresses_all cfg running msg "failover"
             (World (seconds 100) (Delivered (seconds 100)))). reflexivity.
Defined.

(** ** The tracker, the window and the loop *)

Section LoopFacts.

Variable cfg : config.

Lemma check_failover_last_pool lp (times : alert_times) r w :
  (check_failover cfg lp times r w).1.1 = next_pool lp r.
Proof.
  unfold check_failover, next_pool.
  destruct (String.eqb (pool r) "unknown"); [reflexivity |].
  destruct lp as [p|]; [| reflexivity].
  destruct (String.eqb_spec (pool r) p) as [-> | Hne]; simpl; [reflexivity |].
  now destruct (send_slack_alert cfg times _ "failover" w).
Qed.

Lemma check_error_rate_window window (times : alert_times) r w :
  (check_error_rate cfg window times r w).1.1 = deque_append (WINDOW_SIZE cfg) window r.
Proof.
  unfold check_error_rate.
  destruct (length _ <? WINDOW_SIZE cfg)%nat; [reflexivity |].
  destruct (length _ =? 0)%nat; [reflexivity |].
  destruct (PrimFloat.ltb _ _); [| reflexivity].
  now destruct (send_slack_alert cfg times _ "error_rate" w).
Qed.

Lemma check_error_rate_raised window (times : alert_times) r w :
  raised (check_error_rate cfg window times r w).2 =
  let d := deque_append (WINDOW_SIZE cfg) window r in
  negb (length d <? WINDOW_SIZE cfg)%nat && (length d =? 0)%nat.
Proof.
  unfold check_error_rate. simpl.
  destruct (length _ <? WINDOW_SIZE cfg)%nat; [reflexivity |].
  destruct (length _ =? 0)%nat; [reflexivity |].
  destruct (PrimFloat.ltb _ _); [| reflexivity].
  now destruct (send_slack_alert cfg times _ "error_rate" w).
Qed.

Lemma deque_append_length {A : Type} (n : nat) (d : list A) (x : A) :
  (length d <= n)%nat ->
  length (deque_append n d x) = Nat.min (S (length d)) n.
Proof.
  intros Hle. unfold deque_append. rewrite length_app.
  change (length [x]) with 1%nat.
  destruct (Nat.ltb_spec n (length d + 1)) as [Hlt | Hge].
  - destruct d as [|y d]; cbn [length app tail] in *; [lia |].
    rewrite length_app. cbn [length]. lia.
  - rewrite length_app. cbn [length]. lia.
Qed.

(** The window after a push is the last [n] of what it held and the new
    record, in order of arrival. *)
Lemma deque_append_drop {A : Type} (n : nat) (d : list A) (x : A) :
  (length d <= n)%nat ->
  deque_append n d x = drop (length (d ++ [x])%list - n) (d ++ [x])%list.
Proof.
  intros Hle. unfold deque_append. rewrite length_app.
  change (length [x]) with 1%nat.
  destruct (Nat.ltb_spec n (length d + 1)) as [Hlt | Hge].
  - replace (length d + 1 - n)%nat with 1%nat by lia.
    now destruct (d ++ [x])%list.
  - now replace (length d + 1 - n)%nat with 0%nat by lia.
Qed.

(** A full window loses its oldest record to a push. *)
Lemma deque_append_full {A : Type} (n : nat) (d : list A) (x : A) :
  (1 <= n)%nat -> length d = n ->
  deque_append n d x = (tail d ++ [x])%list.
Proof.
  intros Hn Hl. unfold deque_append. rewrite length_app.
  change (length [x]) with 1%nat.
  destruct (Nat.ltb_spec n (length d + 1)) as [Hlt | Hge]; [| lia].
  destruct d as [|y d]; [simpl in Hl; lia | reflexivity].
Qed.

Lemma fold_deque_append {A : Type} (n : nat) (rs d : list A) :
  (length d <= n)%nat ->
  fold_left (deque_append n) rs d
  = drop (length (d ++ rs)%list - n) (d ++ rs)%list.
Proof.
  revert d. induction rs as [|r rs IH]; intros d Hle; simpl.
  - rewrite app_nil_r. now replace (length d - n)%nat with 0%nat by lia.
  - rewrite IH by (rewrite deque_append_length by exact Hle; lia).
    rewrite (deque_append_drop n d r Hle).
    set (k := (length (d ++ [r])%list - n)%nat).
    assert (Hk : (k <= length (d ++ [r])%list)%nat) by (subst k; lia).
    rewrite <- (drop_app_le (d ++ [r])%list rs k Hk).
    rewrite drop_drop, <- app_assoc. simpl.
    f_equal. rewrite !length_app, length_drop, !length_app in *. simpl in *.
    subst k. rewrite length_app in *. simpl in *. lia.
Qed.

(** What one call of [check_error_rate] does, by the length of the window
    after the push. *)
Lemma check_error_rate_cases window (times : alert_times) r w :
  let d := deque_append (WINDOW_SIZE cfg) window r in
  let error_count := count_5xx d in
  let error_rate := error_rate_of error_count (length d) in
  let msg := HighErrorRate error_rate (ERROR_RATE_THRESHOLD cfg) error_count
               (length d) (pool r) (WINDOW_SIZE cfg) in
  ((length d < WINDOW_SIZE cfg)%nat ->
   check_error_rate cfg window times r w = (d, times, inr InsufficientData)) /\
  ((WINDOW_SIZE cfg <= length d)%nat -> (0 < length d)%nat ->
   (PrimFloat.ltb (ERROR_RATE_THRESHOLD cfg) error_rate = true ->
    check_error_rate cfg window times r w
    = (d, (send_slack_alert cfg times msg "error_rate" w).2,
       inr (Rate error_count (length d) error_rate
              (Some (msg, (send_slack_alert cfg times msg "error_rate" w).1))))) /\
   (PrimFloat.ltb (ERROR_RATE_THRESHOLD cfg) error_rate = false ->
    check_error_rate cfg window times r w
    = (d, times, inr (Rate error_count (length d) error_rate None)))).
Proof.
  intros d error_count error_rate msg. unfold check_error_rate.
  fold d. fold error_count. fold error_rate. fold msg. split.
  - intros Hlt. apply Nat.ltb_lt in Hlt. now rewrite Hlt.
  - intros Hge Hpos. apply Nat.ltb_ge in Hge. rewrite Hge.
    destruct (Nat.eqb_spec (length d) 0) as [H0 | _]; [lia |].
    split; intros ->; [| reflexivity].
    now destruct (send_slack_alert cfg times msg "error_rate" w).
Qed.

(** With a window of at least one record the division is defined. *)
Lemma check_error_rate_returns window (times : alert_times) r w :
  (1 <= WINDOW_SIZE cfg)%nat -> (length window <= WINDOW_SIZE cfg)%nat ->
  raised (check_error_rate cfg window times r w).2 = false.
Proof.
  intros Hn Hle. rewrite check_error_rate_raised. simpl.
  rewrite (deque_append_length _ _ _ Hle).
  destruct (Nat.eqb_spec (S (length window) `min` WINDOW_SIZE cfg) 0); [lia |].
  apply andb_false_r.
Qed.

Lemma process_record_state st r ws :
  let res := process_record cfg st r ws in
  last_pool res.1.1 = next_pool (last_pool st) r /\
  request_window res.1.1 = deque_append (WINDOW_SIZE cfg) (request_window st) r /\
  raised res.2 =
    raised (check_error_rate cfg (request_window st)
              (check_failover cfg (last_pool st) (last_alert_times st) r
                 (failover_world ws)).1.2
              r (error_rate_world ws)).2.
Proof.
  unfold process_record.
  pose proof (check_failover_last_pool (last_pool st) (last_alert_times st) r
                (failover_world ws)) as Hf.
  destruct (check_failover cfg (last_pool st) (last_alert_times st) r (failover_world ws))
    as [[lp times] obs]. simpl in Hf. simpl.
  pose proof (check_error_rate_window (request_window st) times r (error_rate_world ws)) as Hw.
  destruct (check_error_rate cfg (request_window st) times r (error_rate_world ws))
    as [[window times'] res]. simpl in Hw. simpl.
  now repeat split.
Qed.

End LoopFacts.

Section RunFacts.

Variable cfg : config.
Hypothesis window_size_positive : (1 <= WINDOW_SIZE cfg)%nat.

(** The tracker and the window before the iteration on the [i]th input. *)
Lemma process_records_nth inputs : forall st i r ws,
  (length (request_window st) <= WINDOW_SIZE cfg)%nat ->
  inputs !! i = Some (r, ws) ->
  exists t1 t2,
    (process_records cfg st inputs).2 !! i
    = Some ((check_failover cfg
               (fold_left next_pool (take i inputs).*1 (last_pool st))
               t1 r (failover_world ws)).2,
            (check_error_rate cfg
               (fold_left (deque_append (WINDOW_SIZE cfg)) (take i inputs).*1
                  (request_window st))
               t2 r (error_rate_world ws)).2).
Proof.
  induction inputs as [|[r0 ws0] inputs IH]; intros st i r ws Hle Hi; [discriminate |].
  simpl.
  pose proof (process_record_state cfg st r0 ws0) as (Hp & Hw & Hr).
  rewrite check_error_rate_returns in Hr by assumption.
  destruct (process_record cfg st r0 ws0) as [[st' obs] res] eqn:E.
  simpl in Hp, Hw, Hr.
  destruct res as [e | status0]; [discriminate |].
  destruct (process_records cfg st' inputs) as [st'' out] eqn:E'.
  destruct i as [|i].
  - injection Hi as -> ->. simpl.
    exists (last_alert_times st).
    exists (check_failover cfg (last_pool st) (last_alert_times st) r
              (failover_world ws)).1.2.
    f_equal. revert E. unfold process_record.
    destruct (check_failover cfg (last_pool st) (last_alert_times st) r (failover_world ws))
      as [[lp times] obs']. simpl.
    destruct (check_error_rate cfg (request_window st) times r (error_rate_world ws))
      as [[window times'] res']. simpl. congruence.
  - simpl in Hi. simpl.
    assert (Hle' : (length (request_window st') <= WINDOW_SIZE cfg)%nat).
    { rewrite Hw, deque_append_length by exact Hle. lia. }
    destruct (IH st' i r ws Hle' Hi) as (t1 & t2 & Hout).
    rewrite E' in Hout. simpl in Hout. rewrite Hp, Hw in Hout.
    now exists t1, t2.
Qed.

(** Every input is processed, and the tracker and the window after the run
    are those of the two folds. *)
Lemma process_records_run inputs : forall st,
  (length (request_window st) <= WINDOW_SIZE cfg)%nat ->
  length (process_records cfg st inputs).2 = length inputs /\
  last_pool (process_records cfg st inputs).1
  = fold_left next_pool inputs.*1 (last_pool st) /\
  request_window (process_records cfg st inputs).1
  = fold_left (deque_append (WINDOW_SIZE cfg)) inputs.*1 (request_window st).
Proof.
  induction inputs as [|[r0 ws0] inputs IH]; intros st Hle; [now repeat split |].
  simpl.
  pose proof (process_record_state cfg st r0 ws0) as (Hp & Hw & Hr).
  rewrite check_error_rate_returns in Hr by assumption.
  destruct (process_record cfg st r0 ws0) as [[st' obs] res] eqn:E.
  simpl in Hp, Hw, Hr.
  destruct res as [e | status0]; [discriminate |].
  assert (Hle' : (length (request_window st') <= WINDOW_SIZE cfg)%nat).
  { rewrite Hw, deque_append_length by exact Hle. lia. }
  destruct (IH st' Hle') as (Hlen & Hpool & Hwin).
  destruct (process_records cfg st' inputs) as [st'' out] eqn:E'.
  simpl in *. rewrite Hlen, Hpool, Hwin, Hp, Hw. now repeat split.
Qed.

Lemma fold_next_pool_unknown (rs : list record) lp :
  Forall (fun r => pool r = "unknown") rs -> fold_left next_pool rs lp = lp.
Proof.
  intros H. revert lp. induction H as [|r rs Hr _ IH]; intros lp; [reflexivity |].
  simpl. unfold next_pool at 2. rewrite Hr. simpl. apply IH.
Qed.

End RunFacts.

(** ** The failover tracker *)

(** C3.  A record whose pool is [unknown] leaves the tracker as it is and
    raises nothing; the first pool seen is only recorded; a pool other than
    the current one (compared as strings, character by character) raises a
    failover alert and becomes the current pool.  Over a run from the start:
    the records before the first one with a known pool are passed over, and
    that one initialises the tracker. *)
Theorem failover_tracker (cfg : config) :
  (forall lp (times : alert_times) r w,
     pool r = "unknown" ->
     check_failover cfg lp times r w = (lp, times, NoChange)) /\
  (forall (times : alert_times) r w,
     pool r <> "unknown" ->
     check_failover cfg None times r w
     = (Some (pool r), times, Initialized (pool r))) /\
  (forall p (times : alert_times) r w,
     pool r <> "unknown" -> pool r <> p ->
     let msg := FailoverDetected p (pool r) (release r) (upstream r) (timestamp r) in
     check_failover cfg (Some p) times r w
     = (Some (pool r), (send_slack_alert cfg times msg "failover" w).2,
        Failover msg (send_slack_alert cfg times msg "failover" w).1)) /\
  ((1 <= WINDOW_SIZE cfg)%nat ->
   forall pre r ws rest,
     Forall (fun i => pool i.1 = "unknown") pre ->
     pool r <> "unknown" ->
     let run := process_records cfg initial_state (pre ++ (r, ws) :: rest)%list in
     (forall i o, (i < length pre)%nat -> run.2 !! i = Some o -> o.1 = NoChange) /\
     (exists res, run.2 !! length pre = Some (Initialized (pool r), res))).
Proof.
  split; [| split; [| split]].
  - intros lp times r w Hu. unfold check_failover. now rewrite Hu.
  - intros times r w Hk. unfold check_failover.
    now destruct (String.eqb_spec (pool r) "unknown").
  - intros p times r w Hk Hne msg. unfold check_failover.
    destruct (String.eqb_spec (pool r) "unknown"); [contradiction |].
    destruct (String.eqb_spec (pool r) p); [contradiction |]. simpl. fold msg.
    now destruct (send_slack_alert cfg times msg "failover" w).
  - intros Hn pre r ws rest Hpre Hk run. subst run. split.
    + intros i o Hi Ho.
      destruct (lookup_lt_is_Some_2 pre i Hi) as [[ri wsi] Hlk].
      assert (Hin : (pre ++ (r, ws) :: rest)%list !! i = Some (ri, wsi))
        by (rewrite lookup_app_l; assumption).
      destruct (process_records_nth cfg Hn _ initial_state i ri wsi (Nat.le_0_l _) Hin)
        as (t1 & t2 & Hout).
      rewrite Hout in Ho. injection Ho as <-. simpl.
      assert (Hri : pool ri = "unknown").
      { rewrite Forall_forall in Hpre. apply (Hpre (ri, wsi)).
        apply list_elem_of_lookup. now exists i. }
      unfold check_failover. now rewrite Hri.
    + assert (Hin : (pre ++ (r, ws) :: rest)%list !! length pre = Some (r, ws)).
      { rewrite lookup_app_r by lia. now rewrite Nat.sub_diag. }
      destruct (process_records_nth cfg Hn _ initial_state (length pre) r ws
                  (Nat.le_0_l _) Hin) as (t1 & t2 & Hout).
      rewrite take_app_length in Hout.
      rewrite fold_next_pool_unknown in Hout.
      * simpl in Hout. eexists. rewrite Hout. f_equal. f_equal.
        unfold check_failover. now destruct (String.eqb_spec (pool r) "unknown").
      * apply Forall_fmap. exact Hpre.
Qed.

(** Scenario B of the specification, and a change of case, which is a change
    of pool. *)
Lemma failover_tracker_witness :
  let cfg := example_config 2 200 in
  let t := initial_alert_times in
  let w := World 0 (Delivered 0) in
  let msg := FailoverDetected "blue" "green" "unknown" "unknown" 0 in
  check_failover cfg None t (example_record "blue" 200) w
  = (Some "blue", t, Initialized "blue") /\
  check_failover cfg (Some "blue") t (example_record "green" 200) w
  = (Some "green", <["failover" := Some 0]> t, Failover msg Sent) /\
  check_failover cfg (Some "green") t (example_record "unknown" 200) w
  = (Some "green", t, NoChange) /\
  (check_failover cfg (Some "blue") t (example_record "Blue" 200) w).1.1
  = Some "Blue".
Proof.
  intros cfg t w msg.
  destruct (failover_tracker cfg) as (Hunknown & Hfirst & Hchange & _).
  split; [| split; [| split]].
  - apply (Hfirst t (example_record "blue" 200) w). discriminate.
  - rewrite (Hchange "blue" t (example_record "green" 200) w); [reflexivity | |];
      discriminate.
  - apply (Hunknown (Some "green") t (example_record "unknown" 200) w). reflexivity.
  - rewrite (Hchange "blue" t (example_record "Blue" 200) w); [reflexivity | |];
      discriminate.
Defined.

(** ** The sliding window *)

(** C4.  With a window size of at least one, the window after any run is
    made of the last [WINDOW_SIZE] records pushed, in order of arrival: it
    never holds more than that, it holds exactly that many once that many
    were pushed, every rate is reported over that many, and a push into a
    full window drops the oldest record and adds the new one at the end. *)
Theorem window_keeps_last_records (cfg : config) (st : state)
        (inputs : list (record * worlds)) :
  (1 <= WINDOW_SIZE cfg)%nat ->
  (length (request_window st) <= WINDOW_SIZE cfg)%nat ->
  let pushed := (request_window st ++ inputs.*1)%list in
  let run := process_records cfg st inputs in
  request_window run.1 = drop (length pushed - WINDOW_SIZE cfg) pushed /\
  (length (request_window run.1) <= WINDOW_SIZE cfg)%nat /\
  ((WINDOW_SIZE cfg <= length pushed)%nat ->
   length (request_window run.1) = WINDOW_SIZE cfg) /\
  (forall i obs error_count total rate alert,
     run.2 !! i = Some (obs, inr (Rate error_count total rate alert)) ->
     total = WINDOW_SIZE cfg) /\
  (forall (d : list record) x,
     length d = WINDOW_SIZE cfg ->
     deque_append (WINDOW_SIZE cfg) d x = (tail d ++ [x])%list).
Proof.
  intros Hn Hle pushed run. subst pushed run.
  destruct (process_records_run cfg Hn inputs st Hle) as (Hlen & _ & Hwin).
  rewrite Hwin, (fold_deque_append _ _ _ Hle).
  split; [reflexivity |]. rewrite length_drop.
  split; [lia |]. split; [lia |]. split.
  - intros i obs error_count total rate alert Hi.
    assert (Hlt : (i < length inputs)%nat).
    { rewrite <- Hlen. now apply lookup_lt_Some in Hi. }
    destruct (lookup_lt_is_Some_2 inputs i Hlt) as [[r ws] Hin].
    destruct (process_records_nth cfg Hn inputs st i r ws Hle Hin) as (t1 & t2 & Hout).
    rewrite Hout in Hi. injection Hi as _ Hres.
    set (window := fold_left (deque_append (WINDOW_SIZE cfg)) (take i inputs).*1
                     (request_window st)) in *.
    assert (Hwl : (length window <= WINDOW_SIZE cfg)%nat).
    { subst window. rewrite (fold_deque_append _ _ _ Hle), length_drop. lia. }
    pose proof (deque_append_length (WINDOW_SIZE cfg) window r Hwl) as Hdl.
    destruct (check_error_rate_cases cfg window t2 r (error_rate_world ws))
      as [Hshort Hfull].
    destruct (Nat.lt_ge_cases (length (deque_append (WINDOW_SIZE cfg) window r))
                (WINDOW_SIZE cfg)) as [Hlt' | Hge].
    + rewrite (Hshort Hlt') in Hres. discriminate.
    + destruct (Hfull Hge ltac:(lia)) as [Hyes Hno].
      destruct (PrimFloat.ltb (ERROR_RATE_THRESHOLD cfg) _) eqn:Hthr.
      * rewrite (Hyes eq_refl) in Hres. simpl in Hres. injection Hres as _ <- _ _. lia.
      * rewrite (Hno eq_refl) in Hres. simpl in Hres. injection Hres as _ <- _ _. lia.
  - intros d x Hd. now apply deque_append_full.
Qed.

(** Capacity 3 and five pushes: the window holds the last three, oldest
    first. *)
Lemma window_keeps_last_records_witness :
  let cfg := example_config 50 3 in
  let ws := Worlds (World 0 (Delivered 0)) (World 0 (Delivered 0)) in
  let inputs := map (fun st => (example_record "blue" st, ws)) [200; 201; 502; 204; 503] in
  (1 <= WINDOW_SIZE cfg)%nat /\
  (length (request_window initial_state) <= WINDOW_SIZE cfg)%nat /\
  map status (request_window (process_records cfg initial_state inputs).1)
  = [502; 204; 503].
Proof.
  intros cfg ws inputs.
  split; [vm_compute; lia |]. split; [vm_compute; lia |].
  destruct (window_keeps_last_records cfg initial_state inputs) as (-> & _);
    [vm_compute; lia | vm_compute; lia | reflexivity].
Defined.

(** C5.  With a window size of at least one: a push that leaves the window
    with fewer records than its size reports insufficient data, raises no
    alert and records nothing; a rate is reported only over a window of
    exactly that size; and in a run from the start the pushes before the
    [WINDOW_SIZE]th report insufficient data and the later ones a rate. *)
Theorem rate_needs_full_window (cfg : config) :
  (1 <= WINDOW_SIZE cfg)%nat ->
  (forall window (times : alert_times) r w,
     (length window <= WINDOW_SIZE cfg)%nat ->
     let res := check_error_rate cfg window times r w in
     ((length res.1.1 < WINDOW_SIZE cfg)%nat ->
      res.2 = inr InsufficientData /\ res.1.2 = times) /\
     (forall error_count total rate alert,
        res.2 = inr (Rate error_count total rate alert) ->
        length res.1.1 = WINDOW_SIZE cfg /\ total = WINDOW_SIZE cfg)) /\
  (forall inputs i o,
     (process_records cfg initial_state inputs).2 !! i = Some o ->
     ((i + 1 < WINDOW_SIZE cfg)%nat -> o.2 = inr InsufficientData) /\
     ((WINDOW_SIZE cfg <= i + 1)%nat ->
      exists error_count rate alert,
        o.2 = inr (Rate error_count (WINDOW_SIZE cfg) rate alert))).
Proof.
  intros Hn.
  assert (Hstep : forall window (times : alert_times) r w,
            (length window <= WINDOW_SIZE cfg)%nat ->
            ((S (length window) < WINDOW_SIZE cfg)%nat ->
             check_error_rate cfg window times r w
             = (deque_append (WINDOW_SIZE cfg) window r, times, inr InsufficientData)) /\
            ((WINDOW_SIZE cfg <= S (length window))%nat ->
             length (check_error_rate cfg window times r w).1.1 = WINDOW_SIZE cfg /\
             exists error_count rate alert,
               (check_error_rate cfg window times r w).2
               = inr (Rate error_count (WINDOW_SIZE cfg) rate alert))).
  { intros window times r w Hle.
    pose proof (deque_append_length (WINDOW_SIZE cfg) window r Hle) as Hdl.
    destruct (check_error_rate_cases cfg window times r w) as [Hshort Hfull].
    split.
    - intros Hlt. apply Hshort. lia.
    - intros Hge. rewrite check_error_rate_window. split; [lia |].
      assert (Hlen : length (deque_append (WINDOW_SIZE cfg) window r) = WINDOW_SIZE cfg)
        by lia.
      destruct (Hfull ltac:(lia) ltac:(lia)) as [Hyes Hno].
      destruct (PrimFloat.ltb (ERROR_RATE_THRESHOLD cfg) _) eqn:Hthr.
      + rewrite (Hyes eq_refl). simpl. rewrite Hlen. now eexists _, _, _.
      + rewrite (Hno eq_refl). simpl. rewrite Hlen. now eexists _, _, _. }
  split.
  - intros window times r w Hle res. subst res.
    destruct (Hstep window times r w Hle) as [Hshort Hfull].
    pose proof (deque_append_length (WINDOW_SIZE cfg) window r Hle) as Hdl.
    rewrite check_error_rate_window. split.
    + intros Hlt. rewrite Hshort by lia. now split.
    + intros error_count total rate alert Hres.
      destruct (Nat.lt_ge_cases (S (length window)) (WINDOW_SIZE cfg)) as [Hlt | Hge].
      * rewrite (Hshort Hlt) in Hres. discriminate.
      * destruct (Hfull Hge) as (Hlen & ec & rt & al & Heq).
        rewrite check_error_rate_window in Hlen.
        rewrite Heq in Hres. injection Hres as _ <- _ _. now split.
  - intros inputs i o Hi.
    destruct (process_records_run cfg Hn inputs initial_state (Nat.le_0_l _))
      as (Hlen & _ & _).
    assert (Hlt : (i < length inputs)%nat).
    { rewrite <- Hlen. now apply lookup_lt_Some in Hi. }
    destruct (lookup_lt_is_Some_2 inputs i Hlt) as [[r ws] Hin].
    destruct (process_records_nth cfg Hn inputs initial_state i r ws (Nat.le_0_l _) Hin)
      as (t1 & t2 & Hout).
    rewrite Hout in Hi. injection Hi as <-. simpl.
    set (window := fold_left (deque_append (WINDOW_SIZE cfg)) (take i inputs).*1 []).
    assert (Hwl : length window = Nat.min i (WINDOW_SIZE cfg)).
    { subst window. rewrite (fold_deque_append _ _ [] (Nat.le_0_l _)), length_drop.
      simpl. rewrite length_fmap, length_take. lia. }
    destruct (Hstep window t2 r (error_rate_world ws) ltac:(lia)) as [Hshort Hfull].
    split.
    + intros Hi1. now rewrite Hshort by lia.
    + intros Hi1. now destruct (Hfull ltac:(lia)) as (_ & Hex).
Qed.

(** Scenario A of the specification, its first three pushes: window size 3;
    the first two pushes report insufficient data, the third a rate over
    three records. *)
Lemma rate_needs_full_window_witness :
  let cfg := example_config 50 3 in
  let ws := Worlds (World 0 (Delivered 0)) (World 0 (Delivered 0)) in
  let inputs := map (fun st => (example_record "blue" st, ws)) [200; 200; 500] in
  let out := (process_records cfg initial_state inputs).2 in
  (1 <= WINDOW_SIZE cfg)%nat /\
  (forall o, out !! 0%nat = Some o -> o.2 = inr InsufficientData) /\
  (forall o, out !! 1%nat = Some o -> o.2 = inr InsufficientData) /\
  (forall o, out !! 2%nat = Some o ->
     exists error_count rate alert, o.2 = inr (Rate error_count 3 rate alert)) /\
  out.*2 = [inr InsufficientData; inr InsufficientData;
            inr (Rate 1 3 (error_rate_of 1 3) None)].
Proof.
  intros cfg ws inputs out.
  assert (Hn : (1 <= WINDOW_SIZE cfg)%nat) by (vm_compute; lia).
  destruct (rate_needs_full_window cfg Hn) as [_ Hrun].
  split; [exact Hn |].
  split; [intros o Ho; apply (Hrun inputs 0%nat o Ho); vm_compute; lia |].
  split; [intros o Ho; apply (Hrun inputs 1%nat o Ho); vm_compute; lia |].
  split; [intros o Ho; apply (Hrun inputs 2%nat o Ho); vm_compute; lia |].
  vm_compute. reflexivity.
Defined.

(** [is_5xx] of a parsed record is computed from its two statuses. *)
Lemma parsed_is_5xx (r : record) :
  parsed r -> is_5xx r = (500 <=? status r) || (500 <=? upstream_status r).
Proof.
  intros (n & t & line & H). unfold parse_log_line in H.
  destruct (convert_or (py_int n) 0 (Re.search upstream_status_re line));
    simpl in H; [| discriminate].
  destruct (convert_or (py_int n) 0 (Re.search status_re line));
    simpl in H; [| discriminate].
  destruct (convert_or py_float (Decimal 0 0) (Re.search request_time_re line));
    simpl in H; [| discriminate].
  now injection H as <-.
Qed.

(** The count of the window is the number of its records with a status, or
    an upstream status, of 500 or more. *)
Lemma count_5xx_statuses (d : list record) :
  Forall parsed d ->
  count_5xx d
  = length (filter (fun q => 500 <= status q \/ 500 <= upstream_status q) d).
Proof.
  induction 1 as [|q d Hq _ IH]; [reflexivity |].
  simpl. rewrite filter_cons, IH, (parsed_is_5xx q Hq).
  destruct (Z.leb_spec 500 (status q)); destruct (Z.leb_spec 500 (upstream_status q));
    simpl; case_decide; simpl; try reflexivity; exfalso; lia.
Qed.

(** C6, as amended.  Every push that leaves the window full, the push that
    fills it and every push into a full window, reports a rate.  The window
    is then what it held and the new record, less the oldest record when it
    was full already, and the report is: the number of records of the new
    contents whose [is_5xx] holds (for parsed records: those with a status
    or an upstream status of 500 or more), the window size as the total,
    and as rate the double-precision value of [(error_count / total) * 100],
    the quotient rounded before the product.  An alert of type
    [error_rate] is raised exactly when that value is greater than the
    threshold. *)
Theorem error_rate_of_full_window (cfg : config) (window : list record)
        (times : alert_times) (r : record) (w : world) :
  (1 <= WINDOW_SIZE cfg)%nat ->
  (length window <= WINDOW_SIZE cfg)%nat ->
  (WINDOW_SIZE cfg <= S (length window))%nat ->
  let d := deque_append (WINDOW_SIZE cfg) window r in
  let error_count := count_5xx d in
  let rate := error_rate_of error_count (WINDOW_SIZE cfg) in
  let res := check_error_rate cfg window times r w in
  res.1.1 = d /\
  length d = WINDOW_SIZE cfg /\
  (length window = WINDOW_SIZE cfg -> d = (tail window ++ [r])%list) /\
  (S (length window) = WINDOW_SIZE cfg -> d = (window ++ [r])%list) /\
  (exists alert,
     res.2 = inr (Rate error_count (WINDOW_SIZE cfg) rate alert) /\
     (is_Some alert <-> PrimFloat.ltb (ERROR_RATE_THRESHOLD cfg) rate = true) /\
     (forall msg o, alert = Some (msg, o) ->
        (o, res.1.2) = send_slack_alert cfg times msg "error_rate" w) /\
     (alert = None -> res.1.2 = times)) /\
  (Forall parsed d ->
   error_count
   = length (filter (fun q => 500 <= status q \/ 500 <= upstream_status q) d)).
Proof.
  intros Hn Hle Hge d error_count rate res. subst res.
  destruct (check_error_rate_cases cfg window times r w) as [_ Hfull].
  assert (Hdl : length d = WINDOW_SIZE cfg).
  { subst d. rewrite deque_append_length by exact Hle. lia. }
  fold d in Hfull. rewrite Hdl in Hfull. fold error_count rate in Hfull.
  destruct (Hfull ltac:(lia) ltac:(lia)) as [Hyes Hno].
  split; [now rewrite check_error_rate_window |].
  split; [exact Hdl |].
  split; [intros Hfullw; now apply deque_append_full |].
  split.
  { intros Hfill. subst d. unfold deque_append. rewrite length_app.
    change (length [r]) with 1%nat.
    destruct (Nat.ltb_spec (WINDOW_SIZE cfg) (length window + 1)); [lia | reflexivity]. }
  split; [| intros Hp; now apply count_5xx_statuses].
  destruct (PrimFloat.ltb (ERROR_RATE_THRESHOLD cfg) rate) eqn:Hthr.
  - rewrite (Hyes eq_refl). simpl. eexists. split; [reflexivity |].
    split; [split; [reflexivity | intros _; now eexists] |].
    split; [| discriminate].
    intros msg o Heq. injection Heq as <- <-.
    now destruct (send_slack_alert cfg times _ "error_rate" w).
  - rewrite (Hno eq_refl). simpl. exists None. split; [reflexivity |].
    split; [split; [intros [x Hx]; discriminate | discriminate] |].
    split; [discriminate | reflexivity].
Qed.

(** Scenario A of the specification: window size 3, threshold 50.  The
    third push fills the window with [false, false, true] and reports one
    error in three, below the threshold; the fourth push, an error, drops
    the first record and reports two errors in three, above it. *)
Lemma error_rate_of_full_window_witness :
  let cfg := example_config 50 3 in
  let ok := example_record "blue" 200 in
  let err := example_record "blue" 500 in
  let w := World 0 (Delivered 0) in
  let third := check_error_rate cfg [ok; ok] initial_alert_times err w in
  let fourth := check_error_rate cfg [ok; ok; err] initial_alert_times err w in
  (1 <= WINDOW_SIZE cfg)%nat /\
  map is_5xx third.1.1 = [false; false; true] /\
  (exists alert,
     third.2 = inr (Rate 1 3 (error_rate_of 1 3) alert) /\
     (is_Some alert <-> PrimFloat.ltb 50 (error_rate_of 1 3) = true)) /\
  PrimFloat.ltb 50 (error_rate_of 1 3) = false /\
  map is_5xx fourth.1.1 = [false; true; true] /\
  (exists alert,
     fourth.2 = inr (Rate 2 3 (error_rate_of 2 3) alert) /\
     (is_Some alert <-> PrimFloat.ltb 50 (error_rate_of 2 3) = true)) /\
  PrimFloat.ltb 50 (error_rate_of 2 3) = true.
Proof.
  intros cfg ok err w third fourth.
  assert (Hn : (1 <= WINDOW_SIZE cfg)%nat) by (vm_compute; lia).
  destruct (error_rate_of_full_window cfg [ok; ok] initial_alert_times err w Hn
              ltac:(vm_compute; lia) ltac:(vm_compute; lia))
    as (Hd3 & _ & _ & _ & (alert3 & Hres3 & Hiff3 & _) & _).
  destruct (error_rate_of_full_window cfg [ok; ok; err] initial_alert_times err w Hn
              ltac:(vm_compute; lia) ltac:(vm_compute; lia))
    as (Hd4 & _ & _ & _ & (alert4 & Hres4 & Hiff4 & _) & _).
  split; [exact Hn |].
  split; [subst third; rewrite Hd3; reflexivity |].
  split; [exists alert3; split; [exact Hres3 | exact Hiff3] |].
  split; [vm_compute; reflexivity |].
  split; [subst fourth; rewrite Hd4; reflexivity |].
  split; [exists alert4; split; [exact Hres4 | exact Hiff4] |].
  vm_compute. reflexivity.
Defined.

(** C6, as stated, fails: 7 errors in a window of 25 are exactly 28 percent,
    which is not above a threshold of 28; the script computes 7 / 25 first,
    gets a rate one unit in the last place above 28, and raises the alert. *)
Lemma rounded_rate_exceeds_threshold :
  let cfg := example_config 28 25 in
  let window := (repeat (example_record "blue" 200) 19
                 ++ repeat (example_record "blue" 500) 6)%list in
  let res := check_error_rate cfg window initial_alert_times (example_record "blue" 500)
               (World 0 (Delivered 0)) in
  length window = 25%nat /\
  (100 * 7 = 28 * 25)%nat /\
  PrimFloat.eqb (PrimFloat.div (float_of_nat (100 * 7)) (float_of_nat 25)) 28 = true /\
  PrimFloat.ltb 28 (error_rate_of 7 25) = true /\
  exists msg, res.2 = inr (Rate 7 25 (error_rate_of 7 25) (Some (msg, Sent))).
Proof.
  intros cfg window res.
  split; [reflexivity |]. split; [reflexivity |].
  split; [vm_compute; reflexivity |]. split; [vm_compute; reflexivity |].
  eexists. vm_compute. reflexivity.
Qed.

(** ** Detection does not depend on the gate *)

(** C9.  Two runs over the same parsed records, from the same tracker and
    window and with the same window size, end with the same tracker and the
    same window and process the same number of records, whatever the webhook,
    the maintenance flag, the cooldown, the threshold, the recorded alert
    times, the clock and the fate of the requests are in each. *)
Theorem detection_ignores_delivery (cfg1 cfg2 : config) :
  WINDOW_SIZE cfg1 = WINDOW_SIZE cfg2 ->
  forall (in1 in2 : list (record * worlds)) (st1 st2 : state),
    in1.*1 = in2.*1 ->
    last_pool st1 = last_pool st2 ->
    request_window st1 = request_window st2 ->
    last_pool (process_records cfg1 st1 in1).1
    = last_pool (process_records cfg2 st2 in2).1 /\
    request_window (process_records cfg1 st1 in1).1
    = request_window (process_records cfg2 st2 in2).1 /\
    length (process_records cfg1 st1 in1).2 = length (process_records cfg2 st2 in2).2.
Proof.
  intros Hn. induction in1 as [|[r ws1] in1 IH]; intros in2 st1 st2 Hin Hp Hw.
  - destruct in2; [now repeat split | discriminate].
  - destruct in2 as [|[r2 ws2] in2]; [discriminate |].
    injection Hin as <- Hin. simpl.
    pose proof (process_record_state cfg1 st1 r ws1) as (Hp1 & Hw1 & Hr1).
    pose proof (process_record_state cfg2 st2 r ws2) as (Hp2 & Hw2 & Hr2).
    rewrite check_error_rate_raised in Hr1, Hr2.
    rewrite <- Hp, <- Hw, <- Hn in *.
    destruct (process_record cfg1 st1 r ws1) as [[st1' obs1] res1].
    destruct (process_record cfg2 st2 r ws2) as [[st2' obs2] res2].
    simpl in *.
    assert (Hp' : last_pool st1' = last_pool st2') by congruence.
    assert (Hw' : request_window st1' = request_window st2') by congruence.
    assert (Hr' : raised res1 = raised res2) by congruence.
    destruct res1 as [e1 | s1]; destruct res2 as [e2 | s2]; try discriminate.
    + now repeat split.
    + destruct (IH in2 st1' st2' Hin Hp' Hw') as (Ha & Hb & Hc).
      destruct (process_records cfg1 st1' in1) as [st1'' out1].
      destruct (process_records cfg2 st2' in2) as [st2'' out2].
      simpl in *. repeat split; congruence.
Qed.

(** Scenario B followed by errors, once with every alert delivered and once
    in maintenance mode with every request failing. *)
Lemma detection_ignores_delivery_witness :
  let cfg1 := example_config 50 3 in
  let cfg2 := {| SLACK_WEBHOOK_URL := None; ERROR_RATE_THRESHOLD := 50;
                 WINDOW_SIZE := 3; ALERT_COOLDOWN_SEC := 0;
                 MAINTENANCE_MODE := true |} in
  let ws1 := Worlds (World 0 (Delivered 0)) (World 0 (Delivered 0)) in
  let ws2 := Worlds (World 0 Failed) (World 0 Failed) in
  let records := [example_record "blue" 200; example_record "green" 500;
                  example_record "unknown" 502; example_record "green" 503] in
  let in1 := map (fun r => (r, ws1)) records in
  let in2 := map (fun r => (r, ws2)) records in
  last_pool (process_records cfg1 initial_state in1).1 = Some "green" /\
  last_pool (process_records cfg1 initial_state in1).1
  = last_pool (process_records cfg2 initial_state in2).1 /\
  request_window (process_records cfg1 initial_state in1).1
  = request_window (process_records cfg2 initial_state in2).1 /\
  last_alert_times (process_records cfg1 initial_state in1).1
  <> last_alert_times (process_records cfg2 initial_state in2).1.
Proof.
  intros cfg1 cfg2 ws1 ws2 records in1 in2.
  destruct (detection_ignores_delivery cfg1 cfg2 eq_refl in1 in2
              initial_state initial_state eq_refl eq_refl eq_refl) as (Hp & Hw & _).
  split; [reflexivity |]. split; [exact Hp |]. split; [exact Hw |].
  intros H. apply (f_equal (fun t => dict_get t "failover")) in H.
  vm_compute in H. discriminate.
Defined.

(** ** Without a webhook *)

Section NoWebhook.

Variable cfg : config.
Hypothesis no_webhook : truthy (SLACK_WEBHOOK_URL cfg) = false.

Lemma send_slack_alert_no_webhook (times : alert_times) msg ty w :
  send_slack_alert cfg times msg ty w = (Suppressed (MAINTENANCE_MODE cfg), times).
Proof. unfold send_slack_alert. now rewrite no_webhook. Qed.

Lemma check_failover_no_webhook lp (times : alert_times) r w :
  (check_failover cfg lp times r w).1.2 = times.
Proof.
  unfold check_failover.
  destruct (String.eqb (pool r) "unknown"); [reflexivity |].
  destruct lp as [p|]; [| reflexivity].
  destruct (negb (String.eqb (pool r) p)); [| reflexivity].
  now rewrite send_slack_alert_no_webhook.
Qed.

Lemma check_error_rate_no_webhook window (times : alert_times) r w :
  (check_error_rate cfg window times r w).1.2 = times.
Proof.
  unfold check_error_rate.
  destruct (length _ <? WINDOW_SIZE cfg)%nat; [reflexivity |].
  destruct (length _ =? 0)%nat; [reflexivity |].
  destruct (PrimFloat.ltb _ _); [| reflexivity].
  now rewrite send_slack_alert_no_webhook.
Qed.

Lemma process_record_no_webhook st r ws :
  last_alert_times (process_record cfg st r ws).1.1 = last_alert_times st.
Proof.
  unfold process_record.
  pose proof (check_failover_no_webhook (last_pool st) (last_alert_times st) r
                (failover_world ws)) as Hf.
  destruct (check_failover cfg (last_pool st) (last_alert_times st) r (failover_world ws))
    as [[lp times] obs]. simpl in Hf. subst times.
  pose proof (check_error_rate_no_webhook (request_window st) (last_alert_times st) r
                (error_rate_world ws)) as He.
  now destruct (check_error_rate cfg (request_window st) (last_alert_times st) r
                  (error_rate_world ws)) as [[window times'] res].
Qed.

Lemma process_records_no_webhook inputs : forall st,
  last_alert_times (process_records cfg st inputs).1 = last_alert_times st.
Proof.
  induction inputs as [|[r ws] inputs IH]; intros st; [reflexivity |].
  simpl. pose proof (process_record_no_webhook st r ws) as Hst.
  destruct (process_record cfg st r ws) as [[st' obs] res]. simpl in Hst.
  destruct res as [e | s]; [exact Hst |].
  specialize (IH st'). destruct (process_records cfg st' inputs) as [st'' out].
  simpl in *. congruence.
Qed.

End NoWebhook.

Lemma dict_get_initial (ty : string) : dict_get initial_alert_times ty = None.
Proof.
  unfold dict_get, initial_alert_times.
  destruct (decide (ty = "failover")) as [-> | Hf]; [reflexivity |].
  rewrite lookup_insert_ne by congruence.
  destruct (decide (ty = "error_rate")) as [-> | He]; [reflexivity |].
  rewrite lookup_insert_ne by congruence. now rewrite lookup_empty.
Qed.

(** C10.  When [SLACK_WEBHOOK_URL] is unset or empty, every call of
    [send_slack_alert] is suppressed at its first test, before the cooldown
    and without a request, whatever the alert type; the line it prints names
    the maintenance flag, not the webhook.  No run then records an alert
    time: the dictionary stays as it was, and from the start no alert type
    has a time. *)
Theorem no_webhook_suppresses_all (cfg : config) :
  truthy (SLACK_WEBHOOK_URL cfg) = false ->
  (forall (times : alert_times) msg alert_type w,
     send_slack_alert cfg times msg alert_type w
     = (Suppressed (MAINTENANCE_MODE cfg), times)) /\
  (forall st inputs,
     last_alert_times (process_records cfg st inputs).1 = last_alert_times st) /\
  (forall inputs alert_type,
     dict_get (last_alert_times (process_records cfg initial_state inputs).1) alert_type
     = None).
Proof.
  intros Hu. split; [| split].
  - intros times msg alert_type w. now apply send_slack_alert_no_webhook.
  - intros st inputs. now apply process_records_no_webhook.
  - intros inputs alert_type. rewrite process_records_no_webhook by exact Hu.
    apply dict_get_initial.
Qed.

(** A failover and a full window of errors, with no webhook and maintenance
    mode off: both alerts are suppressed and no time is recorded. *)
Lemma no_webhook_suppresses_all_witness :
  let cfg := {| SLACK_WEBHOOK_URL := None; ERROR_RATE_THRESHOLD := 2;
                WINDOW_SIZE := 2; ALERT_COOLDOWN_SEC := 300;
                MAINTENANCE_MODE := false |} in
  let ws := Worlds (World 0 (Delivered 0)) (World 0 (Delivered 0)) in
  let inputs := [(example_record "blue" 500, ws); (example_record "green" 500, ws)] in
  truthy (SLACK_WEBHOOK_URL cfg) = false /\
  last_alert_times (process_records cfg initial_state inputs).1 = initial_alert_times /\
  dict_get (last_alert_times (process_records cfg initial_state inputs).1) "failover"
  = None /\
  exists m1 m2 rate,
    (process_records cfg initial_state inputs).2 !! 1%nat
    = Some (Failover m1 (Suppressed false),
            inr (Rate 2 2 rate (Some (m2, Suppressed false)))).
Proof.
  intros cfg ws inputs.
  destruct (no_webhook_suppresses_all cfg eq_refl) as (_ & Hrun & Hnone).
  split; [reflexivity |]. split; [apply (Hrun initial_state inputs) |].
  split; [apply (Hnone inputs "failover") |].
  eexists _, _, _. vm_compute. reflexivity.
Defined.

(** * Further properties of the script *)

(** ** What a [key=(p+)] pattern extracts *)

Section TokenFacts.

Import Re.

(** With a continuation that accepts, a greedy repetition takes the whole
    run of its class. *)
Lemma greedy_longest p acc s r :
  greedy p (fun g _ => Some g) acc s = Some r ->
  exists run rest,
    s = run ++ rest /\ all_in p run = true /\
    (forall c rest', rest = String c rest' -> p c = false) /\
    r = acc ++ run.
Proof.
  revert acc r. induction s as [|c s IH]; intros acc r H; simpl in H.
  - injection H as <-. exists "", "". rewrite (ReFacts.append_nil_r acc).
    repeat split. discriminate.
  - destruct (p c) eqn:Hc.
    + destruct (greedy p (fun g _ => Some g) (acc ++ String c "") s) as [g|] eqn:Hg.
      * injection H as <-.
        destruct (IH _ _ Hg) as (run & rest & -> & Hall & Hstop & ->).
        exists (String c run), rest. simpl. rewrite Hc, Hall.
        rewrite ReFacts.append_assoc. repeat split. exact Hstop.
      * exfalso. revert Hg. apply ReFacts.greedy_total. discriminate.
    + injection H as <-. exists "", (String c s). rewrite (ReFacts.append_nil_r acc).
      repeat split. intros c' rest' Heq. injection Heq as <- _. exact Hc.
Qed.

(** The hit of [search] is the match at the first position that has one. *)
Lemma search_leftmost re s tok :
  search re s = Some tok ->
  exists pre suf,
    s = pre ++ suf /\ match_here re "" suf = Some tok /\
    (forall a b, s = a ++ b -> (String.length a < String.length pre)%nat ->
                 match_here re "" b = None).
Proof.
  induction s as [|c s IH]; simpl; intros H.
  - destruct (match_here re "" "") eqn:Hm; [| discriminate].
    exists "", "". split; [reflexivity |]. split; [congruence |].
    intros a b _ Hlt. simpl in Hlt. lia.
  - destruct (match_here re "" (String c s)) eqn:Hm.
    + exists "", (String c s). split; [reflexivity |]. split; [congruence |].
      intros a b _ Hlt. simpl in Hlt. lia.
    + destruct (IH H) as (pre & suf & -> & Hs & Hleft).
      exists (String c pre), suf. split; [reflexivity |]. split; [exact Hs |].
      intros a b Heq Hlt. destruct a as [|x a].
      * rewrite ReFacts.append_nil_l in Heq. now subst b.
      * rewrite !ReFacts.append_cons in Heq. injection Heq as _ Heq.
        apply (Hleft a b Heq). simpl in Hlt. lia.
Qed.

End TokenFacts.

(** X1.  The text that [re.search] extracts for a [key=(p+)] pattern is the
    longest run of the class after the first place in the line where the
    marker is followed by a character of the class: it is not empty, the
    character after it (if any) is not of the class, and no earlier place of
    the line has the marker followed by such a character. *)
Theorem search_key_leftmost_longest (key : string) (p : Re.cls) (line tok : string) :
  Re.search [Re.Lit key; Re.Group p] line = Some tok ->
  exists pre rest,
    line = pre ++ key ++ tok ++ rest /\
    tok <> "" /\ all_in p tok = true /\
    (forall c rest', rest = String c rest' -> p c = false) /\
    (forall a c b, line = a ++ key ++ String c b -> p c = true ->
                   (String.length pre <= String.length a)%nat).
Proof.
  intros H. destruct (search_leftmost _ _ _ H) as (pre & suf & -> & Hm & Hleft).
  simpl in Hm. destruct (Re.lit key suf) as [s'|] eqn:Hl; [| discriminate].
  apply ReFacts.lit_some in Hl. subst suf.
  unfold Re.plus in Hm. destruct s' as [|c s']; [discriminate |].
  destruct (p c) eqn:Hc; [| discriminate].
  destruct (greedy_longest _ _ _ _ Hm) as (run & rest & -> & Hall & Hstop & ->).
  exists pre, rest. rewrite ReFacts.append_cons, !ReFacts.append_nil_l.
  split; [reflexivity |].
  split; [discriminate |]. split; [simpl; now rewrite Hc, Hall |].
  split; [exact Hstop |].
  intros a c' b Heq Hc'.
  destruct (Nat.le_gt_cases (String.length pre) (String.length a)) as [Hle | Hlt];
    [exact Hle | exfalso].
  specialize (Hleft a _ Heq Hlt).
  rewrite ReFacts.match_key_none in Hleft.
  rewrite (Hleft c' b eq_refl) in Hc'. discriminate.
Qed.

(** A line that names its pool twice: the first one is taken, up to the
    hyphen, which is not a word character. *)
Lemma search_key_leftmost_longest_witness :
  Re.search pool_re "a=1 pool=blue-1 pool=green" = Some "blue" /\
  exists pre rest,
    "a=1 pool=blue-1 pool=green" = pre ++ "pool=" ++ "blue" ++ rest /\
    "blue" <> "" /\ all_in Re.word "blue" = true /\
    (forall c rest', rest = String c rest' -> Re.word c = false) /\
    (forall a c b, "a=1 pool=blue-1 pool=green" = a ++ "pool=" ++ String c b ->
                   Re.word c = true -> (String.length pre <= String.length a)%nat).
Proof.
  split; [vm_compute; reflexivity |].
  apply (search_key_leftmost_longest "pool=" Re.word "a=1 pool=blue-1 pool=green" "blue").
  vm_compute. reflexivity.
Defined.

(** ** What every parsed record satisfies *)

Lemma digit_value_range (c : ascii) :
  Re.digit c = true -> 0 <= digit_value c <= 9.
Proof.
  unfold Re.digit, Re.between, digit_value. intros H.
  apply andb_true_iff in H. destruct H as [Hlo Hhi].
  apply N.leb_le in Hlo, Hhi.
  change (N_of_ascii "0") with 48%N in Hlo. change (N_of_ascii "9") with 57%N in Hhi.
  lia.
Qed.

Lemma digits_value_nonneg (s : string) : forall acc,
  all_in Re.digit s = true -> 0 <= acc -> 0 <= digits_value acc s.
Proof.
  induction s as [|c s IH]; intros acc Hd Hacc; simpl in *; [exact Hacc |].
  apply andb_true_iff in Hd. destruct Hd as [Hc Hs].
  apply IH; [exact Hs |]. pose proof (digit_value_range c Hc). lia.
Qed.

Lemma py_int_nonneg n s v : py_int n s = Some v -> 0 <= v.
Proof.
  unfold py_int. destruct (all_in Re.digit s) eqn:Hd; simpl; [| discriminate].
  destruct (String.length s =? 0)%nat; [discriminate |].
  destruct ((0 <? n)%nat && (n <? String.length s)%nat); [discriminate |].
  intros H. injection H as <-. now apply digits_value_nonneg.
Qed.

Lemma py_float_nonneg s d : py_float s = Some d -> 0 <= dec_digits d.
Proof.
  unfold py_float. destruct (split_dot s) as [a b].
  destruct (all_in Re.digit a) eqn:Ha; simpl; [| discriminate].
  destruct (all_in Re.digit (match b with Some f => f | None => "" end)) eqn:Hf;
    simpl; [| discriminate].
  destruct (negb _); [| discriminate].
  intros H. injection H as <-. simpl.
  apply digits_value_nonneg; [| lia].
  now rewrite ReFacts.all_in_app, Ha, Hf.
Qed.

(** The text of a [key=(p+)] field: the default, or a non-empty run of the
    class. *)
Lemma group_or_token (key : string) (p : Re.cls) (line : string) :
  let v := group_or "unknown" (Re.search [Re.Lit key; Re.Group p] line) in
  v = "unknown" \/ (v <> "" /\ all_in p v = true).
Proof.
  simpl. destruct (Re.search [Re.Lit key; Re.Group p] line) as [tok|] eqn:Hs;
    [| now left].
  right. simpl.
  assert (Hno : forall p', ~ In (Re.Group p') [Re.Lit key])
    by (intros p' [H | []]; discriminate).
  destruct (ReFacts.search_token [Re.Lit key] p line tok Hno Hs) as [Hall Hne].
  now split.
Qed.

(** X2.  Every record that [parse_log_line] returns on a line of ASCII
    characters has statuses and a request time that are not negative, a pool and a release that are not
    empty and made of the characters of their patterns, an upstream that is
    [unknown] or a non-empty text of digits, dots and colons, and an
    [is_5xx] that holds exactly when one of the statuses is 500 or more. *)
Theorem parsed_record_invariants (int_max_str_digits : nat) (t : Z)
        (line : string) (r : record) :
  ascii_line line ->
  parse_log_line int_max_str_digits t line = Some r ->
  0 <= status r /\ 0 <= upstream_status r /\ 0 <= dec_digits (request_time r) /\
  (pool r <> "" /\ all_in Re.word (pool r) = true) /\
  (release r <> "" /\
   all_in (Re.alt Re.word (Re.alt (Re.chr "-") (Re.chr "."))) (release r) = true) /\
  (upstream r = "unknown" \/
   (upstream r <> "" /\
    all_in (Re.alt Re.digit (Re.alt (Re.chr ".") (Re.chr ":"))) (upstream r) = true)) /\
  (is_5xx r = true <-> 500 <= status r \/ 500 <= upstream_status r).
Proof.
  intros _ H. rename int_max_str_digits into n. unfold parse_log_line in H.
  destruct (Re.search upstream_status_re line) as [us|] eqn:Eus; simpl in H.
  all: destruct (convert_or (py_int n) 0 (Re.search status_re line)) as [st|] eqn:Est.
  all: try (destruct (py_int n us) as [usv|] eqn:Eusv); simpl in H; try discriminate.
  all: destruct (convert_or py_float (Decimal 0 0) (Re.search request_time_re line))
         as [rt|] eqn:Ert; simpl in H; try discriminate.
  all: injection H as <-; simpl.
  all: assert (Hst : 0 <= st)
         by (destruct (Re.search status_re line); simpl in Est;
             [now apply py_int_nonneg in Est | injection Est as <-; lia]).
  all: assert (Hrt : 0 <= dec_digits rt)
         by (destruct (Re.search request_time_re line); simpl in Ert;
             [now apply py_float_nonneg in Ert | injection Ert as <-; simpl; lia]).
  all: pose proof (group_or_token "pool=" Re.word line) as Hpool.
  all: pose proof (group_or_token "release="
                     (Re.alt Re.word (Re.alt (Re.chr "-") (Re.chr "."))) line) as Hrel.
  all: pose proof (group_or_token "upstream="
                     (Re.alt Re.digit (Re.alt (Re.chr ".") (Re.chr ":"))) line) as Hups.
  all: simpl in Hpool, Hrel, Hups.
  all: fold pool_re in Hpool; fold release_re in Hrel; fold upstream_re in Hups.
  all: try (apply py_int_nonneg in Eusv).
  all: split; [exact Hst |]; split; [lia |]; split; [exact Hrt |].
  all: split; [destruct Hpool as [-> | Hp]; [split; [discriminate | reflexivity] | exact Hp] |].
  all: split; [destruct Hrel as [-> | Hp]; [split; [discriminate | reflexivity] | exact Hp] |].
  all: split; [exact Hups |].
  all: rewrite orb_true_iff, !Z.leb_le; reflexivity.
Qed.

(** The record of a request that the green pool answered with a 502 from
    upstream. *)
Lemma parsed_record_invariants_witness :
  let line := "pool=green release=v1.2-rc upstream_status=502 upstream=10.0.0.2:8080 request_time=0.012" in
  let r := {| pool := "green"; release := "v1.2-rc"; status := 0;
              upstream_status := 502; upstream := "10.0.0.2:8080";
              request_time := Decimal 12 3; is_5xx := true; timestamp := 7 |} in
  ascii_line line /\
  parse_log_line 4300 7 line = Some r /\
  0 <= status r /\ 0 <= upstream_status r /\ 0 <= dec_digits (request_time r) /\
  (pool r <> "" /\ all_in Re.word (pool r) = true) /\
  (release r <> "" /\
   all_in (Re.alt Re.word (Re.alt (Re.chr "-") (Re.chr "."))) (release r) = true) /\
  (upstream r = "unknown" \/
   (upstream r <> "" /\
    all_in (Re.alt Re.digit (Re.alt (Re.chr ".") (Re.chr ":"))) (upstream r) = true)) /\
  (is_5xx r = true <-> 500 <= status r \/ 500 <= upstream_status r).
Proof.
  intros line r.
  assert (Ha : ascii_line line) by (vm_compute; reflexivity).
  assert (Hp : parse_log_line 4300 7 line = Some r) by (vm_compute; reflexivity).
  split; [exact Ha |]. split; [exact Hp |].
  exact (parsed_record_invariants 4300 7 line r Ha Hp).
Defined.

(** ** The loop on lines *)

Lemma parse_log_line_pool n t line r :
  parse_log_line n t line = Some r ->
  pool r = group_or "unknown" (Re.search pool_re line).
Proof.
  unfold parse_log_line. intros H.
  destruct (convert_or (py_int n) 0 (Re.search upstream_status_re line));
    simpl in H; [| discriminate].
  destruct (convert_or (py_int n) 0 (Re.search status_re line));
    simpl in H; [| discriminate].
  destruct (convert_or py_float (Decimal 0 0) (Re.search request_time_re line));
    simpl in H; [| discriminate].
  now injection H as <-.
Qed.

Lemma process_record_unknown cfg st r ws :
  pool r = "unknown" ->
  (process_record cfg st r ws).1.2 = NoChange.
Proof.
  intros Hu. unfold process_record, check_failover. rewrite Hu. simpl.
  now destruct (check_error_rate cfg (request_window st) (last_alert_times st) r
                  (error_rate_world ws)) as [[window times] res].
Qed.

(** X3.  A line of ASCII characters that parses but names no pool still
    counts: its record is
    pushed on the window, while the tracker is left as it is and no failover
    is raised. *)
Theorem line_without_pool_counts (cfg : config) (int_max_str_digits : nat)
        (st : state) (line : string) (t : Z) (ws : worlds) (r : record) :
  ascii_line line ->
  line <> "" ->
  ~ occurs "pool=" Re.word line ->
  parse_log_line int_max_str_digits t line = Some r ->
  exists st' res,
    process_line cfg int_max_str_digits st line t ws = (st', Some (NoChange, res)) /\
    last_pool st' = last_pool st /\
    request_window st' = deque_append (WINDOW_SIZE cfg) (request_window st) r /\
    pool r = "unknown".
Proof.
  intros _ Hne Hno Hparse.
  assert (Hu : pool r = "unknown").
  { rewrite (parse_log_line_pool _ _ _ _ Hparse).
    apply ReFacts.search_key_none in Hno. unfold pool_re. now rewrite Hno. }
  unfold process_line.
  destruct (String.eqb_spec line ""); [contradiction |]. rewrite Hparse.
  pose proof (process_record_state cfg st r ws) as (Hp & Hw & _).
  pose proof (process_record_unknown cfg st r ws Hu) as Hobs.
  destruct (process_record cfg st r ws) as [[st' obs] res]. simpl in *.
  exists st', res. subst obs. split; [reflexivity |].
  split; [| now split]. rewrite Hp. unfold next_pool. now rewrite Hu.
Qed.

(** A 502 from upstream on a line without a pool, while the tracker holds
    [blue]. *)
Lemma line_without_pool_counts_witness :
  let cfg := example_config 50 3 in
  let st := {| last_pool := Some "blue"; request_window := [];
               last_alert_times := initial_alert_times |} in
  let ws := Worlds (World 0 (Delivered 0)) (World 0 (Delivered 0)) in
  let line := "upstream_status=502 upstream=10.0.0.2:8080" in
  ascii_line line /\
  exists r st' res,
    parse_log_line 4300 0 line = Some r /\
    process_line cfg 4300 st line 0 ws = (st', Some (NoChange, res)) /\
    last_pool st' = Some "blue" /\
    map upstream_status (request_window st') = [502].
Proof.
  intros cfg st ws line.
  assert (Ha : ascii_line line) by (vm_compute; reflexivity).
  split; [exact Ha |].
  destruct (parse_log_line 4300 0 line) as [r|] eqn:Hparse; [| vm_compute in Hparse; discriminate].
  assert (Hno : ~ occurs "pool=" Re.word line)
    by (apply ReFacts.search_key_none; vm_compute; reflexivity).
  destruct (line_without_pool_counts cfg 4300 st line 0 ws r
              Ha ltac:(discriminate) Hno Hparse) as (st' & res & Hrun & Hp & Hw & _).
  exists r, st', res. split; [reflexivity |]. split; [exact Hrun |].
  split; [exact Hp |]. rewrite Hw. vm_compute in Hparse. injection Hparse as <-.
  reflexivity.
Defined.

(** X4.  Empty reads and lines that do not parse have no effect: a run over
    what was read ends in the state, and gives the observations, of the run
    over the records of the lines that parse. *)
Theorem unparsed_lines_are_skipped (cfg : config) (int_max_str_digits : nat)
        (reads : list (string * Z * worlds)) (st : state) :
  process_lines cfg int_max_str_digits st reads
  = process_records cfg st (omap (parsed_read int_max_str_digits) reads).
Proof.
  revert st. induction reads as [|[[line t] ws] reads IH]; intros st; [reflexivity |].
  simpl. unfold process_line.
  destruct (String.eqb line ""); [apply IH |].
  destruct (parse_log_line int_max_str_digits t line) as [r|]; [| apply IH].
  simpl. destruct (process_record cfg st r ws) as [[st' obs] res].
  destruct res as [e | status0]; [reflexivity |]. now rewrite IH.
Qed.

(** ** The alert types do not share a cooldown *)

Lemma send_slack_alert_outcome cfg (t1 t2 : alert_times) msg ty w :
  dict_get t1 ty = dict_get t2 ty ->
  (send_slack_alert cfg t1 msg ty w).1 = (send_slack_alert cfg t2 msg ty w).1.
Proof.
  intros H. unfold send_slack_alert.
  destruct (negb (truthy (SLACK_WEBHOOK_URL cfg)) || MAINTENANCE_MODE cfg);
    [reflexivity |].
  rewrite H. unfold deliver.
  destruct (dict_get t2 ty) as [last|];
    [destruct (now w - last <? ALERT_COOLDOWN_SEC cfg * 1000000); [reflexivity |] |];
    now destruct (post w).
Qed.

Lemma send_slack_alert_other cfg (times : alert_times) msg ty w ty' :
  ty <> ty' ->
  dict_get (send_slack_alert cfg times msg ty w).2 ty' = dict_get times ty'.
Proof.
  intros Hne.
  destruct (send_slack_alert_times cfg times msg ty w) as [(done & _ & ->) | [_ ->]];
    [| reflexivity].
  simpl. unfold dict_get. now rewrite lookup_insert_ne.
Qed.

(** X5.  A call of [send_slack_alert] for one alert type leaves the recorded
    time of every other type as it was, so it never changes what a later
    call for another type does: a delivered failover alert does not hold
    back an error-rate alert, nor the other way round. *)
Theorem alert_types_are_independent (cfg : config) (times : alert_times)
        (msg msg' : message) (alert_type alert_type' : string) (w w' : world) :
  alert_type <> alert_type' ->
  let times' := (send_slack_alert cfg times msg alert_type w).2 in
  dict_get times' alert_type' = dict_get times alert_type' /\
  (send_slack_alert cfg times' msg' alert_type' w').1
  = (send_slack_alert cfg times msg' alert_type' w').1.
Proof.
  intros Hne times'. subst times'.
  pose proof (send_slack_alert_other cfg times msg alert_type w alert_type' Hne) as H.
  split; [exact H |]. now apply send_slack_alert_outcome.
Qed.

(** A failover alert delivered at 0 and an error-rate alert one second
    later: the second is delivered too. *)
Lemma alert_types_are_independent_witness :
  let cfg := example_config 2 200 in
  let m1 := FailoverDetected "blue" "green" "unknown" "unknown" 0 in
  let m2 := HighErrorRate 50 2 100 200 "green" 200 in
  let times' := (send_slack_alert cfg initial_alert_times m1 "failover"
                   (World 0 (Delivered 0))).2 in
  dict_get times' "failover" = Some 0 /\
  dict_get times' "error_rate" = None /\
  (send_slack_alert cfg times' m2 "error_rate"
     (World (seconds 1) (Delivered (seconds 1)))).1 = Sent.
Proof.
  intros cfg m1 m2 times'.
  destruct (alert_types_are_independent cfg initial_alert_times m1 m2
              "failover" "error_rate" (World 0 (Delivered 0))
              (World (seconds 1) (Delivered (seconds 1))) ltac:(discriminate))
    as [Hget Hout].
  split; [reflexivity |]. split; [exact Hget |].
  subst times'. rewrite Hout. reflexivity.
Defined.

(** ** A window size of zero *)

(** X6.  With [WINDOW_SIZE] set to 0 the window stays empty, the length test
    lets the first parsed record through, and the division by the length
    raises [ZeroDivisionError]: the run ends on its first record, after the
    tracker has seen it. *)
Theorem zero_window_size_raises (cfg : config) (st : state) (r : record)
        (ws : worlds) (inputs : list (record * worlds)) :
  WINDOW_SIZE cfg = 0%nat ->
  request_window st = [] ->
  exists st' obs,
    process_records cfg st ((r, ws) :: inputs) = (st', [(obs, inl ZeroDivisionError)]) /\
    request_window st' = [] /\
    last_pool st' = next_pool (last_pool st) r.
Proof.
  intros Hn Hw. simpl.
  pose proof (process_record_state cfg st r ws) as (Hp & Hwin & _).
  assert (Hres : forall times w,
            (check_error_rate cfg (request_window st) times r w).2
            = inl ZeroDivisionError).
  { intros times w. unfold check_error_rate. now rewrite Hn, Hw. }
  revert Hp Hwin. unfold process_record.
  destruct (check_failover cfg (last_pool st) (last_alert_times st) r (failover_world ws))
    as [[lp times] obs].
  specialize (Hres times (error_rate_world ws)).
  destruct (check_error_rate cfg (request_window st) times r (error_rate_world ws))
    as [[window times'] res]. simpl in *. subst res. intros Hp Hwin.
  exists {| last_pool := lp; request_window := window; last_alert_times := times' |}, obs.
  split; [reflexivity |]. simpl. split; [| exact Hp].
  rewrite Hwin, Hn, Hw. reflexivity.
Qed.

(** The first record of a run with a window size of 0. *)
Lemma zero_window_size_raises_witness :
  let cfg := example_config 2 0 in
  let ws := Worlds (World 0 (Delivered 0)) (World 0 (Delivered 0)) in
  let inputs := [(example_record "blue" 200, ws); (example_record "green" 200, ws)] in
  WINDOW_SIZE cfg = 0%nat /\
  (process_records cfg initial_state inputs).2
  = [(Initialized "blue", inl ZeroDivisionError)] /\
  last_pool (process_records cfg initial_state inputs).1 = Some "blue".
Proof.
  intros cfg ws inputs.
  destruct (zero_window_size_raises cfg initial_state (example_record "blue" 200) ws
              [(example_record "green" 200, ws)] eq_refl eq_refl)
    as (st' & obs & Hrun & _ & Hp).
  split; [reflexivity |]. subst inputs. rewrite Hrun. simpl.
  split; [| exact Hp].
  vm_compute in Hrun. now injection Hrun as _ <-.
Defined.

(** ** The tracker over a run *)

Lemma known_pools_cons (r : record) (rs : list record) :
  known_pools (r :: rs)
  = if String.eqb (pool r) "unknown" then known_pools rs
    else pool r :: known_pools rs.
Proof.
  unfold known_pools. simpl. rewrite filter_cons.
  destruct (String.eqb_spec (pool r) "unknown") as [Heq | Hne];
    case_decide; try reflexivity; contradiction.
Qed.

Lemma fold_next_pool_last (rs : list record) : forall lp,
  fold_left next_pool rs lp
  = match last (known_pools rs) with
    | Some p => Some p
    | None => lp
    end.
Proof.
  induction rs as [|r rs IH]; intros lp; [reflexivity |].
  simpl. rewrite IH, known_pools_cons. unfold next_pool.
  destruct (String.eqb (pool r) "unknown"); [reflexivity |].
  rewrite last_cons. now destruct (last (known_pools rs)).
Qed.

Lemma known_pools_known (rs : list record) : "unknown" ∉ known_pools rs.
Proof.
  unfold known_pools. intros H. apply list_elem_of_filter in H. now destruct H.
Qed.

(** X7.  With a window size of at least one, the pool the tracker holds
    after a run is the pool of the last record that names one, or the pool it
    held before when no record does; it is never [unknown]. *)
Theorem tracker_holds_last_known_pool (cfg : config) (st : state)
        (inputs : list (record * worlds)) :
  (1 <= WINDOW_SIZE cfg)%nat ->
  (length (request_window st) <= WINDOW_SIZE cfg)%nat ->
  last_pool st <> Some "unknown" ->
  last_pool (process_records cfg st inputs).1
  = match last (known_pools inputs.*1) with
    | Some p => Some p
    | None => last_pool st
    end /\
  last_pool (process_records cfg st inputs).1 <> Some "unknown".
Proof.
  intros Hn Hle Hst.
  destruct (process_records_run cfg Hn inputs st Hle) as (_ & Hp & _).
  rewrite Hp, fold_next_pool_last. split; [reflexivity |].
  destruct (last (known_pools inputs.*1)) as [p|] eqn:Hl; [| exact Hst].
  intros Heq. injection Heq as ->.
  apply (known_pools_known inputs.*1). apply last_Some_elem_of in Hl. exact Hl.
Qed.

(** Scenario B followed by a line without a pool. *)
Lemma tracker_holds_last_known_pool_witness :
  let cfg := example_config 50 3 in
  let ws := Worlds (World 0 (Delivered 0)) (World 0 (Delivered 0)) in
  let inputs := map (fun p => (example_record p 200, ws))
                  ["blue"; "blue"; "green"; "unknown"] in
  (1 <= WINDOW_SIZE cfg)%nat /\
  last_pool (process_records cfg initial_state inputs).1 = Some "green".
Proof.
  intros cfg ws inputs.
  assert (Hn : (1 <= WINDOW_SIZE cfg)%nat) by (vm_compute; lia).
  destruct (tracker_holds_last_known_pool cfg initial_state inputs Hn
              ltac:(vm_compute; lia) ltac:(discriminate)) as [Hp _].
  split; [exact Hn |]. rewrite Hp. reflexivity.
Defined.

Lemma process_record_observation cfg st r ws :
  (process_record cfg st r ws).1.2
  = (check_failover cfg (last_pool st) (last_alert_times st) r (failover_world ws)).2.
Proof.
  unfold process_record.
  destruct (check_failover cfg (last_pool st) (last_alert_times st) r (failover_world ws))
    as [[lp times] obs].
  now destruct (check_error_rate cfg (request_window st) times r (error_rate_world ws))
    as [[window times'] res].
Qed.

Lemma check_failover_transition cfg lp (times : alert_times) r w :
  failover_of (check_failover cfg lp times r w).2
  = if String.eqb (pool r) "unknown" then None
    else match lp with
         | Some p => if String.eqb (pool r) p then None else Some (p, pool r)
         | None => None
         end.
Proof.
  unfold check_failover.
  destruct (String.eqb (pool r) "unknown"); [reflexivity |].
  destruct lp as [p|]; [| reflexivity].
  destruct (String.eqb (pool r) p); simpl; [reflexivity |].
  now destruct (send_slack_alert cfg times _ "failover" w).
Qed.

(** X8.  With a window size of at least one, the failover alerts of a run
    are the changes of pool, in order: one alert for each record whose pool
    is known and differs from the last known pool before it, naming the two,
    and none for any other record.  Whether the alert is then delivered is up
    to [send_slack_alert]. *)
Theorem failovers_are_pool_changes (cfg : config)
        (inputs : list (record * worlds)) (st : state) :
  (1 <= WINDOW_SIZE cfg)%nat ->
  (length (request_window st) <= WINDOW_SIZE cfg)%nat ->
  omap (fun o => failover_of o.1) (process_records cfg st inputs).2
  = transitions (last_pool st) (known_pools inputs.*1).
Proof.
  intros Hn. revert st. induction inputs as [|[r ws] inputs IH]; intros st Hle;
    [reflexivity |].
  simpl.
  pose proof (process_record_state cfg st r ws) as (Hp & Hw & Hr).
  rewrite check_error_rate_returns in Hr by assumption.
  pose proof (process_record_observation cfg st r ws) as Hobs.
  destruct (process_record cfg st r ws) as [[st' obs] res]. simpl in *.
  destruct res as [e | status0]; [discriminate |].
  assert (Hle' : (length (request_window st') <= WINDOW_SIZE cfg)%nat).
  { rewrite Hw, deque_append_length by exact Hle. lia. }
  specialize (IH st' Hle').
  destruct (process_records cfg st' inputs) as [st'' out]. simpl in *.
  change (list_omap _ _ ?f out) with (omap f out). fold (fst <$> inputs).
  rewrite IH, Hp, Hobs, check_failover_transition, known_pools_cons.
  unfold next_pool.
  destruct (String.eqb (pool r) "unknown"); [reflexivity |]. simpl.
  destruct (last_pool st) as [p|]; [| reflexivity].
  now destruct (String.eqb (pool r) p).
Qed.

(** Blue, blue, a line without a pool, green, green, blue: two changes. *)
Lemma failovers_are_pool_changes_witness :
  let cfg := example_config 50 3 in
  let ws := Worlds (World 0 (Delivered 0)) (World 0 (Delivered 0)) in
  let inputs := map (fun p => (example_record p 200, ws))
                  ["blue"; "blue"; "unknown"; "green"; "green"; "blue"] in
  (1 <= WINDOW_SIZE cfg)%nat /\
  omap (fun o => failover_of o.1) (process_records cfg initial_state inputs).2
  = [("blue", "green"); ("green", "blue")].
Proof.
  intros cfg ws inputs.
  assert (Hn : (1 <= WINDOW_SIZE cfg)%nat) by (vm_compute; lia).
  split; [exact Hn |].
  rewrite (failovers_are_pool_changes cfg inputs initial_state Hn
             ltac:(vm_compute; lia)).
  reflexivity.
Defined.

(** ** Where the recorded times come from *)

Lemma send_slack_alert_recorded cfg (times : alert_times) msg ty0 w ty d :
  dict_get (send_slack_alert cfg times msg ty0 w).2 ty = Some d ->
  dict_get times ty = Some d \/ (ty = ty0 /\ post w = Delivered d).
Proof.
  destruct (send_slack_alert_times cfg times msg ty0 w) as [(done & Hp & ->) | [_ ->]];
    [| now left].
  simpl. unfold dict_get. destruct (decide (ty0 = ty)) as [-> | Hne].
  - rewrite lookup_insert_eq. intros H. injection H as ->. now right.
  - rewrite lookup_insert_ne by exact Hne. now left.
Qed.

Lemma check_failover_recorded cfg lp (times : alert_times) r w ty d :
  dict_get (check_failover cfg lp times r w).1.2 ty = Some d ->
  dict_get times ty = Some d \/ (ty = "failover" /\ post w = Delivered d).
Proof.
  unfold check_failover.
  destruct (String.eqb (pool r) "unknown"); [now left |].
  destruct lp as [p|]; [| now left].
  destruct (negb (String.eqb (pool r) p)); [| now left].
  pose proof (send_slack_alert_recorded cfg times
                (FailoverDetected p (pool r) (release r) (upstream r) (timestamp r))
                "failover" w ty d) as H.
  now destruct (send_slack_alert cfg times _ "failover" w).
Qed.

Lemma check_error_rate_recorded cfg window (times : alert_times) r w ty d :
  dict_get (check_error_rate cfg window times r w).1.2 ty = Some d ->
  dict_get times ty = Some d \/ (ty = "error_rate" /\ post w = Delivered d).
Proof.
  unfold check_error_rate.
  destruct (length _ <? WINDOW_SIZE cfg)%nat; [now left |].
  destruct (length _ =? 0)%nat; [now left |].
  destruct (PrimFloat.ltb _ _); [| now left].
  match goal with
  | |- context [send_slack_alert cfg times ?m "error_rate" w] =>
      pose proof (send_slack_alert_recorded cfg times m "error_rate" w ty d) as H;
      now destruct (send_slack_alert cfg times m "error_rate" w)
  end.
Qed.

Lemma process_record_recorded cfg st r ws ty d :
  dict_get (last_alert_times (process_record cfg st r ws).1.1) ty = Some d ->
  dict_get (last_alert_times st) ty = Some d \/
  (ty = "failover" /\ post (failover_world ws) = Delivered d) \/
  (ty = "error_rate" /\ post (error_rate_world ws) = Delivered d).
Proof.
  unfold process_record.
  pose proof (check_failover_recorded cfg (last_pool st) (last_alert_times st) r
                (failover_world ws) ty d) as Hf.
  destruct (check_failover cfg (last_pool st) (last_alert_times st) r (failover_world ws))
    as [[lp times] obs]. simpl in Hf.
  pose proof (check_error_rate_recorded cfg (request_window st) times r
                (error_rate_world ws) ty d) as He.
  destruct (check_error_rate cfg (request_window st) times r (error_rate_world ws))
    as [[window times'] res]. simpl in *.
  intros H. destruct (He H) as [Ht | Hd]; [| now right; right].
  destruct (Hf Ht) as [Hs | Hd]; [now left | now right; left].
Qed.

(** ** A threshold that nothing exceeds *)

Lemma ltb_nan (x : float) : PrimFloat.ltb nan x = false.
Proof. rewrite ltb_spec. reflexivity. Qed.

Lemma ltb_infinity (x : float) : PrimFloat.ltb infinity x = false.
Proof.
  rewrite ltb_spec. change (Prim2SF infinity) with (S754_infinity false).
  unfold SFltb. destruct (Prim2SF x) as [ | [] | | ]; reflexivity.
Qed.

(** X10.  [float] accepts [nan] and [inf] for [ERROR_RATE_THRESHOLD].  With
    either, no rate is greater than the threshold: [check_error_rate] raises
    no alert and records nothing, whatever the window holds. *)
Theorem unreachable_threshold_silences_error_rate (cfg : config)
        (window : list record) (times : alert_times) (r : record) (w : world) :
  ERROR_RATE_THRESHOLD cfg = nan \/ ERROR_RATE_THRESHOLD cfg = infinity ->
  has_alert (check_error_rate cfg window times r w).2 = false /\
  (check_error_rate cfg window times r w).1.2 = times.
Proof.
  intros Hthr. unfold check_error_rate.
  destruct (length _ <? WINDOW_SIZE cfg)%nat; [now split |].
  destruct (length _ =? 0)%nat; [now split |].
  assert (Hlt : forall x, PrimFloat.ltb (ERROR_RATE_THRESHOLD cfg) x = false)
    by (intros x; destruct Hthr as [-> | ->]; [apply ltb_nan | apply ltb_infinity]).
  rewrite Hlt. now split.
Qed.

(** A full window of errors under a threshold of [nan]: a rate of 100 and
    no alert. *)
Lemma unreachable_threshold_silences_error_rate_witness :
  let cfg := example_config nan 2 in
  let window := [example_record "blue" 500; example_record "blue" 502] in
  let res := check_error_rate cfg window initial_alert_times (example_record "blue" 503)
               (World 0 (Delivered 0)) in
  (ERROR_RATE_THRESHOLD cfg = nan \/ ERROR_RATE_THRESHOLD cfg = infinity) /\
  res.2 = inr (Rate 2 2 100 None) /\
  has_alert res.2 = false /\ res.1.2 = initial_alert_times.
Proof.
  intros cfg window res.
  assert (Hthr : ERROR_RATE_THRESHOLD cfg = nan \/ ERROR_RATE_THRESHOLD cfg = infinity)
    by (left; reflexivity).
  split; [exact Hthr |]. split; [vm_compute; reflexivity |].
  exact (unreachable_threshold_silences_error_rate cfg window initial_alert_times
           (example_record "blue" 503) (World 0 (Delivered 0)) Hthr).
Defined.

(** ** Deliveries of one type are a cooldown apart *)

Lemma send_slack_alert_sent cfg (times : alert_times) msg ty w :
  (send_slack_alert cfg times msg ty w).1 = Sent ->
  exists done,
    post w = Delivered done /\
    dict_get (send_slack_alert cfg times msg ty w).2 ty = Some done /\
    (forall last, dict_get times ty = Some last ->
                  seconds (ALERT_COOLDOWN_SEC cfg) <= now w - last).
Proof.
  unfold send_slack_alert, seconds.
  destruct (negb (truthy (SLACK_WEBHOOK_URL cfg)) || MAINTENANCE_MODE cfg);
    [discriminate |].
  unfold deliver. destruct (dict_get times ty) as [last|] eqn:Hl.
  - destruct (Z.ltb_spec (now w - last) (ALERT_COOLDOWN_SEC cfg * 1000000));
      [discriminate |].
    destruct (post w) as [done|]; [| discriminate]. intros _. exists done.
    split; [reflexivity |]. split; [apply dict_get_insert |].
    intros last' H'. injection H' as <-. assumption.
  - destruct (post w) as [done|]; [| discriminate]. intros _. exists done.
    split; [reflexivity |]. split; [apply dict_get_insert | discriminate].
Qed.

Lemma send_slack_alert_not_sent cfg (times : alert_times) msg ty w :
  (send_slack_alert cfg times msg ty w).1 <> Sent ->
  (send_slack_alert cfg times msg ty w).2 = times.
Proof.
  intros Hne.
  destruct (send_slack_alert_times cfg times msg ty w) as [(done & _ & Heq) | [_ Heq]];
    [| exact Heq].
  rewrite Heq in Hne. now contradiction Hne.
Qed.

(** The failover half of an iteration. *)
Lemma check_failover_delivery cfg lp (times : alert_times) r w :
  let res := check_failover cfg lp times r w in
  (failover_sent res.2 = true ->
   exists done,
     post w = Delivered done /\
     dict_get res.1.2 "failover" = Some done /\
     (forall last, dict_get times "failover" = Some last ->
                   seconds (ALERT_COOLDOWN_SEC cfg) <= now w - last)) /\
  (failover_sent res.2 = false -> res.1.2 = times) /\
  dict_get res.1.2 "error_rate" = dict_get times "error_rate".
Proof.
  unfold check_failover.
  destruct (String.eqb (pool r) "unknown"); [now repeat split |].
  destruct lp as [p|]; [| now repeat split].
  destruct (negb (String.eqb (pool r) p)); [| now repeat split].
  set (msg := FailoverDetected p (pool r) (release r) (upstream r) (timestamp r)).
  pose proof (send_slack_alert_sent cfg times msg "failover" w) as Hs.
  pose proof (send_slack_alert_not_sent cfg times msg "failover" w) as Hn.
  pose proof (send_slack_alert_other cfg times msg "failover" w "error_rate"
                ltac:(discriminate)) as Ho.
  destruct (send_slack_alert cfg times msg "failover" w) as [o times']. simpl in *.
  split; [| split; [| exact Ho]].
  - intros Hsent. apply Hs. now destruct o.
  - intros Hsent. apply Hn. intros ->. discriminate.
Qed.

(** The error-rate half of an iteration. *)
Lemma check_error_rate_delivery cfg window (times : alert_times) r w :
  let res := check_error_rate cfg window times r w in
  (error_rate_sent res.2 = true ->
   exists done,
     post w = Delivered done /\
     dict_get res.1.2 "error_rate" = Some done /\
     (forall last, dict_get times "error_rate" = Some last ->
                   seconds (ALERT_COOLDOWN_SEC cfg) <= now w - last)) /\
  (error_rate_sent res.2 = false -> res.1.2 = times) /\
  dict_get res.1.2 "failover" = dict_get times "failover".
Proof.
  unfold check_error_rate.
  destruct (length _ <? WINDOW_SIZE cfg)%nat; [now repeat split |].
  destruct (length _ =? 0)%nat; [now repeat split |].
  destruct (PrimFloat.ltb _ _); [| now repeat split].
  match goal with
  | |- context [send_slack_alert cfg times ?m "error_rate" w] => set (msg := m)
  end.
  pose proof (send_slack_alert_sent cfg times msg "error_rate" w) as Hs.
  pose proof (send_slack_alert_not_sent cfg times msg "error_rate" w) as Hn.
  pose proof (send_slack_alert_other cfg times msg "error_rate" w "failover"
                ltac:(discriminate)) as Ho.
  destruct (send_slack_alert cfg times msg "error_rate" w) as [o times']. simpl in *.
  split; [| split; [| exact Ho]].
  - intros Hsent. apply Hs. now destruct o.
  - intros Hsent. apply Hn. intros ->. discriminate.
Qed.

Section Spacing.

Variable cfg : config.
Hypothesis cooldown_nonneg : 0 <= ALERT_COOLDOWN_SEC cfg.

(** One of the two alert types: its name, how an iteration shows that its
    alert was delivered, and the world of its call. *)
Variable ty : string.
Variable sent : observation * (exn + window_status) -> bool.
Variable world_of : worlds -> world.

Hypothesis step_spec : forall st r ws,
  let res := process_record cfg st r ws in
  (sent (res.1.2, res.2) = true ->
   exists done,
     post (world_of ws) = Delivered done /\
     dict_get (last_alert_times res.1.1) ty = Some done /\
     (forall last, dict_get (last_alert_times st) ty = Some last ->
                   seconds (ALERT_COOLDOWN_SEC cfg) <= now (world_of ws) - last)) /\
  (sent (res.1.2, res.2) = false ->
   dict_get (last_alert_times res.1.1) ty = dict_get (last_alert_times st) ty).

(** Once a time not before [lb] is recorded, every later delivery is a
    cooldown after [lb]. *)
Lemma delivery_after_recorded inputs : forall st lb j rj wsj oj,
  (forall r ws, (r, ws) ∈ inputs -> clock_runs_on (world_of ws)) ->
  (exists last, dict_get (last_alert_times st) ty = Some last /\ lb <= last) ->
  inputs !! j = Some (rj, wsj) ->
  (process_records cfg st inputs).2 !! j = Some oj ->
  sent oj = true ->
  seconds (ALERT_COOLDOWN_SEC cfg) <= now (world_of wsj) - lb.
Proof.
  induction inputs as [|[r ws] inputs IH]; intros st lb j rj wsj oj Hclock Hrec Hin Hout Hsent;
    [discriminate |].
  simpl in Hout. pose proof (step_spec st r ws) as [Hyes Hno].
  destruct (process_record cfg st r ws) as [[st' obs] res]. simpl in Hyes, Hno.
  destruct Hrec as (last & Hlast & Hlb).
  assert (Hcd : 0 <= seconds (ALERT_COOLDOWN_SEC cfg)) by (unfold seconds; lia).
  destruct j as [|j].
  - injection Hin as <- <-.
    assert (oj = (obs, res)) as ->.
    { destruct res as [e | status0]; [now injection Hout as <- |].
      destruct (process_records cfg st' inputs). now injection Hout as <-. }
    destruct (Hyes Hsent) as (done & _ & _ & Hgap). specialize (Hgap last Hlast). lia.
  - destruct res as [e | status0]; [discriminate |].
    destruct (process_records cfg st' inputs) as [st'' out] eqn:E. simpl in Hin, Hout.
    apply (IH st' lb j rj wsj oj); try assumption.
    + intros r0 ws0 H0. apply (Hclock r0 ws0). now apply list_elem_of_further.
    + destruct (sent (obs, inr status0)) eqn:Hs.
      * destruct (Hyes eq_refl) as (done & Hpost & Hdone & Hgap).
        exists done. split; [exact Hdone |].
        specialize (Hgap last Hlast).
        pose proof (Hclock r ws (list_elem_of_here _ _) done Hpost). lia.
      * exists last. split; [now rewrite (Hno eq_refl) | exact Hlb].
    + now rewrite E.
Qed.

Lemma deliveries_spaced inputs : forall st i j ri wsi rj wsj oi oj done,
  (forall r ws, (r, ws) ∈ inputs -> clock_runs_on (world_of ws)) ->
  (i < j)%nat ->
  inputs !! i = Some (ri, wsi) -> inputs !! j = Some (rj, wsj) ->
  (process_records cfg st inputs).2 !! i = Some oi ->
  (process_records cfg st inputs).2 !! j = Some oj ->
  sent oi = true -> sent oj = true ->
  post (world_of wsi) = Delivered done ->
  seconds (ALERT_COOLDOWN_SEC cfg) <= now (world_of wsj) - done.
Proof.
  induction inputs as [|[r ws] inputs IH];
    intros st i j ri wsi rj wsj oi oj done Hclock Hij Hi Hj Hoi Hoj Hsi Hsj Hpost;
    [discriminate |].
  destruct j as [|j]; [lia |].
  simpl in Hoi, Hoj. pose proof (step_spec st r ws) as [Hyes _].
  destruct (process_record cfg st r ws) as [[st' obs] res]. simpl in Hyes.
  destruct res as [e | status0]; [discriminate |].
  destruct (process_records cfg st' inputs) as [st'' out] eqn:E.
  simpl in Hj, Hoj.
  assert (Hclock' : forall r0 ws0, (r0, ws0) ∈ inputs -> clock_runs_on (world_of ws0))
    by (intros r0 ws0 H0; apply (Hclock r0 ws0); now apply list_elem_of_further).
  destruct i as [|i].
  - injection Hi as <- <-. simpl in Hoi. injection Hoi as <-.
    destruct (Hyes Hsi) as (done' & Hpost' & Hdone & _).
    assert (done' = done) as -> by congruence.
    apply (delivery_after_recorded inputs st' done j rj wsj oj); try assumption.
    + exists done. split; [exact Hdone | lia].
    + now rewrite E.
  - simpl in Hi, Hoi.
    apply (IH st' i j ri wsi rj wsj oi oj done); try assumption; try lia;
      now rewrite E.
Qed.

End Spacing.

Lemma process_record_failover_step cfg st r ws :
  let res := process_record cfg st r ws in
  (failover_sent res.1.2 = true ->
   exists done,
     post (failover_world ws) = Delivered done /\
     dict_get (last_alert_times res.1.1) "failover" = Some done /\
     (forall last, dict_get (last_alert_times st) "failover" = Some last ->
                   seconds (ALERT_COOLDOWN_SEC cfg) <= now (failover_world ws) - last)) /\
  (failover_sent res.1.2 = false ->
   dict_get (last_alert_times res.1.1) "failover"
   = dict_get (last_alert_times st) "failover").
Proof.
  unfold process_record.
  pose proof (check_failover_delivery cfg (last_pool st) (last_alert_times st) r
                (failover_world ws)) as (Hyes & Hno & _).
  destruct (check_failover cfg (last_pool st) (last_alert_times st) r (failover_world ws))
    as [[lp times] obs]. simpl in Hyes, Hno.
  pose proof (check_error_rate_delivery cfg (request_window st) times r
                (error_rate_world ws)) as (_ & _ & Hkeep).
  destruct (check_error_rate cfg (request_window st) times r (error_rate_world ws))
    as [[window times'] res]. simpl in *. rewrite Hkeep. split.
  - exact Hyes.
  - intros Hs. now rewrite (Hno Hs).
Qed.

Lemma process_record_error_rate_step cfg st r ws :
  let res := process_record cfg st r ws in
  (error_rate_sent res.2 = true ->
   exists done,
     post (error_rate_world ws) = Delivered done /\
     dict_get (last_alert_times res.1.1) "error_rate" = Some done /\
     (forall last, dict_get (last_alert_times st) "error_rate" = Some last ->
                   seconds (ALERT_COOLDOWN_SEC cfg) <= now (error_rate_world ws) - last)) /\
  (error_rate_sent res.2 = false ->
   dict_get (last_alert_times res.1.1) "error_rate"
   = dict_get (last_alert_times st) "error_rate").
Proof.
  unfold process_record.
  pose proof (check_failover_delivery cfg (last_pool st) (last_alert_times st) r
                (failover_world ws)) as (_ & _ & Hkeep).
  destruct (check_failover cfg (last_pool st) (last_alert_times st) r (failover_world ws))
    as [[lp times] obs]. simpl in Hkeep.
  pose proof (check_error_rate_delivery cfg (request_window st) times r
                (error_rate_world ws)) as (Hyes & Hno & _).
  destruct (check_error_rate cfg (request_window st) times r (error_rate_world ws))
    as [[window times'] res]. simpl in *. rewrite <- Hkeep. split.
  - exact Hyes.
  - intros Hs. now rewrite (Hno Hs).
Qed.

(** X9.  A time that the dictionary holds after a run was there before the
    run, or was recorded by an iteration of the run that delivered an alert
    of that type: it is the clock read after the request of that iteration
    succeeded.  Nothing else is ever recorded, and only for the types
    [failover] and [error_rate]. *)
Theorem recorded_times_are_deliveries (cfg : config)
        (inputs : list (record * worlds)) (st : state) (alert_type : string) (d : Z) :
  dict_get (last_alert_times (process_records cfg st inputs).1) alert_type = Some d ->
  dict_get (last_alert_times st) alert_type = Some d \/
  exists i r ws o,
    inputs !! i = Some (r, ws) /\
    (process_records cfg st inputs).2 !! i = Some o /\
    ((alert_type = "failover" /\ failover_sent o.1 = true /\
      post (failover_world ws) = Delivered d) \/
     (alert_type = "error_rate" /\ error_rate_sent o.2 = true /\
      post (error_rate_world ws) = Delivered d)).
Proof.
  assert (Hstep : forall st0 r ws,
            dict_get (last_alert_times (process_record cfg st0 r ws).1.1) alert_type
            = Some d ->
            dict_get (last_alert_times st0) alert_type = Some d \/
            (alert_type = "failover" /\
             failover_sent (process_record cfg st0 r ws).1.2 = true /\
             post (failover_world ws) = Delivered d) \/
            (alert_type = "error_rate" /\
             error_rate_sent (process_record cfg st0 r ws).2 = true /\
             post (error_rate_world ws) = Delivered d)).
  { intros st0 r ws H.
    destruct (process_record_recorded cfg st0 r ws alert_type d H)
      as [Hold | [[-> Hpost] | [-> Hpost]]]; [now left | |].
    - destruct (process_record_failover_step cfg st0 r ws) as [Hyes Hno].
      destruct (failover_sent (process_record cfg st0 r ws).1.2) eqn:Hs.
      + right. left. now repeat split.
      + left. now rewrite <- (Hno eq_refl).
    - destruct (process_record_error_rate_step cfg st0 r ws) as [Hyes Hno].
      destruct (error_rate_sent (process_record cfg st0 r ws).2) eqn:Hs.
      + right. right. now repeat split.
      + left. now rewrite <- (Hno eq_refl). }
  revert st. induction inputs as [|[r ws] inputs IH]; intros st H; [now left |].
  simpl in H |- *. specialize (Hstep st r ws).
  destruct (process_record cfg st r ws) as [[st' obs] res]. simpl in Hstep.
  assert (Hhere : forall out,
            dict_get (last_alert_times st') alert_type = Some d ->
            dict_get (last_alert_times st) alert_type = Some d \/
            exists i r0 ws0 o,
              ((r, ws) :: inputs) !! i = Some (r0, ws0) /\
              ((obs, res) :: out) !! i = Some o /\
              ((alert_type = "failover" /\ failover_sent o.1 = true /\
                post (failover_world ws0) = Delivered d) \/
               (alert_type = "error_rate" /\ error_rate_sent o.2 = true /\
                post (error_rate_world ws0) = Delivered d))).
  { intros out Hst'. destruct (Hstep Hst') as [Hold | Hsent]; [now left |].
    right. exists 0%nat, r, ws, (obs, res). now repeat split. }
  destruct res as [e | status0]; [exact (Hhere [] H) |].
  specialize (IH st').
  destruct (process_records cfg st' inputs) as [st'' out]. simpl in *.
  destruct (IH H) as [Hst' | (i & r0 & ws0 & o & Hin & Hout & Hsent)];
    [exact (Hhere out Hst') |].
  right. exists (S i), r0, ws0, o. now repeat split.
Qed.

(** A failover delivered at second 5 of a run from the start, in its second
    iteration. *)
Lemma recorded_times_are_deliveries_witness :
  let cfg := example_config 50 3 in
  let ws := Worlds (World 0 (Delivered (seconds 5))) (World 0 Failed) in
  let inputs := [(example_record "blue" 200, ws); (example_record "green" 200, ws)] in
  let run := process_records cfg initial_state inputs in
  dict_get (last_alert_times run.1) "failover" = Some (seconds 5) /\
  map (fun o => failover_sent o.1) run.2 = [false; true] /\
  (dict_get (last_alert_times initial_state) "failover" = Some (seconds 5) \/
   exists i r ws' o,
     inputs !! i = Some (r, ws') /\ run.2 !! i = Some o /\
     (("failover" = "failover" /\ failover_sent o.1 = true /\
       post (failover_world ws') = Delivered (seconds 5)) \/
      ("failover" = "error_rate" /\ error_rate_sent o.2 = true /\
       post (error_rate_world ws') = Delivered (seconds 5)))).
Proof.
  intros cfg ws inputs run.
  assert (H : dict_get (last_alert_times run.1) "failover" = Some (seconds 5))
    by (vm_compute; reflexivity).
  split; [exact H |]. split; [vm_compute; reflexivity |].
  exact (recorded_times_are_deliveries cfg inputs initial_state "failover" (seconds 5) H).
Defined.

(** X12.  With a cooldown from 0 to [2 ^ 33] seconds, for which the
    comparison that the script makes in double precision is that of the
    integers, and a clock that does not run backwards during a request, two alerts of the same type that a run
    delivers are at least the cooldown apart: the later one passed its
    cooldown check no sooner than [ALERT_COOLDOWN_SEC] seconds after the
    delivery of the earlier one was recorded.  This holds for the failover
    alerts and for the error-rate alerts, each on its own. *)
Theorem deliveries_are_a_cooldown_apart (cfg : config)
        (inputs : list (record * worlds)) (st : state) (i j : nat)
        (ri rj : record) (wsi wsj : worlds)
        (oi oj : observation * (exn + window_status)) (done : Z) :
  cooldown_in_range cfg ->
  (forall r ws, (r, ws) ∈ inputs ->
     clock_runs_on (failover_world ws) /\ clock_runs_on (error_rate_world ws)) ->
  (i < j)%nat ->
  inputs !! i = Some (ri, wsi) -> inputs !! j = Some (rj, wsj) ->
  (process_records cfg st inputs).2 !! i = Some oi ->
  (process_records cfg st inputs).2 !! j = Some oj ->
  (failover_sent oi.1 = true -> failover_sent oj.1 = true ->
   post (failover_world wsi) = Delivered done ->
   seconds (ALERT_COOLDOWN_SEC cfg) <= now (failover_world wsj) - done) /\
  (error_rate_sent oi.2 = true -> error_rate_sent oj.2 = true ->
   post (error_rate_world wsi) = Delivered done ->
   seconds (ALERT_COOLDOWN_SEC cfg) <= now (error_rate_world wsj) - done).
Proof.
  intros [Hcd _] Hclock Hij Hi Hj Hoi Hoj. split; intros Hsi Hsj Hpost.
  - apply (deliveries_spaced cfg Hcd "failover" (fun o => failover_sent o.1)
             failover_world (process_record_failover_step cfg)
             inputs st i j ri wsi rj wsj oi oj done); try assumption.
    intros r ws Hin. now apply (Hclock r ws).
  - apply (deliveries_spaced cfg Hcd "error_rate" (fun o => error_rate_sent o.2)
             error_rate_world (process_record_error_rate_step cfg)
             inputs st i j ri wsi rj wsj oi oj done); try assumption.
    intros r ws Hin. now apply (Hclock r ws).
Qed.

(** A pool that flaps: the failover to green is delivered within a second,
    the failover back to blue 100 seconds later is held back by the cooldown
    of 300, and the next one, at 400 seconds, is delivered. *)
Lemma deliveries_are_a_cooldown_apart_witness :
  let cfg := example_config 50 3 in
  let at_ (t d : Z) :=
    Worlds (World (seconds t) (Delivered (seconds d)))
           (World (seconds t) (Delivered (seconds d))) in
  let inputs := [(example_record "blue" 200, at_ 0 0);
                 (example_record "green" 200, at_ 0 1);
                 (example_record "blue" 200, at_ 100 101);
                 (example_record "green" 200, at_ 400 401)] in
  let out := (process_records cfg initial_state inputs).2 in
  cooldown_in_range cfg /\
  map (fun o => failover_sent o.1) out = [false; true; false; true] /\
  seconds (ALERT_COOLDOWN_SEC cfg) <= seconds 400 - seconds 1.
Proof.
  intros cfg at_ inputs out.
  assert (Hcd : cooldown_in_range cfg) by (vm_compute; split; discriminate).
  assert (Hclock : forall r ws, (r, ws) ∈ inputs ->
            clock_runs_on (failover_world ws) /\ clock_runs_on (error_rate_world ws)).
  { assert (HF : Forall (fun x => clock_runs_on (failover_world x.2) /\
                                   clock_runs_on (error_rate_world x.2)) inputs).
    { repeat constructor; intros d Hd; simpl in Hd; injection Hd as <-;
        vm_compute; discriminate. }
    intros r ws Hin. rewrite Forall_forall in HF. exact (HF (r, ws) Hin). }
  destruct (out !! 1%nat) as [o1|] eqn:H1; [| vm_compute in H1; discriminate].
  destruct (out !! 3%nat) as [o3|] eqn:H3; [| vm_compute in H3; discriminate].
  destruct (deliveries_are_a_cooldown_apart cfg inputs initial_state 1 3
              (example_record "green" 200) (example_record "green" 200)
              (at_ 0 1) (at_ 400 401) o1 o3 (seconds 1)
              Hcd Hclock ltac:(lia) eq_refl eq_refl H1 H3) as [Hfail _].
  split; [exact Hcd |]. split; [vm_compute; reflexivity |].
  apply Hfail; [| | reflexivity].
  - vm_compute in H1. now injection H1 as <-.
  - vm_compute in H3. now injection H3 as <-.
Defined.

(** ** The count of the window, push by push *)

(** X13.  The count that [check_error_rate] makes afresh over a full window
    is the count before the push, plus one if the new record is an error,
    less one if the record that the push drops was one: a running counter
    kept that way would show the same numbers. *)
Theorem count_follows_pushes (n : nat) (oldest : record) (d : list record)
        (x : record) :
  length (oldest :: d) = n ->
  (count_5xx (deque_append n (oldest :: d) x) + (if is_5xx oldest then 1 else 0)
   = count_5xx (oldest :: d) + (if is_5xx x then 1 else 0))%nat.
Proof.
  intros Hlen.
  assert (Hn : (1 <= n)%nat) by (simpl in Hlen; lia).
  rewrite (deque_append_full n (oldest :: d) x Hn Hlen).
  simpl.
  assert (Happ : forall l, count_5xx (l ++ [x])%list
                           = (count_5xx l + (if is_5xx x then 1 else 0))%nat).
  { induction l as [|y l IH]; simpl; [lia | rewrite IH; lia]. }
  rewrite Happ. lia.
Qed.

(** A window of three with one error, which a push of an error drops. *)
Lemma count_follows_pushes_witness :
  let err := example_record "blue" 500 in
  let ok := example_record "blue" 200 in
  length [err; ok; ok] = 3%nat /\
  count_5xx (deque_append 3 [err; ok; ok] err) = 1%nat /\
  map status (deque_append 3 [err; ok; ok] err) = [200; 200; 500].
Proof.
  intros err ok.
  pose proof (count_follows_pushes 3 err [ok; ok] err eq_refl) as H.
  split; [reflexivity |]. split; [| reflexivity].
  simpl in H. vm_compute in H |- *. lia.
Defined.

(** ** A run in maintenance mode *)

(** X14.  In maintenance mode a run records no time at all: the dictionary
    after the run is the one before it, whatever the records, the clock and
    the requests; the tracker and the window go on as ever. *)
Theorem maintenance_run_records_nothing (cfg : config)
        (inputs : list (record * worlds)) (st : state) :
  MAINTENANCE_MODE cfg = true ->
  last_alert_times (process_records cfg st inputs).1 = last_alert_times st /\
  forall i o, (process_records cfg st inputs).2 !! i = Some o ->
    failover_sent o.1 = false /\ error_rate_sent o.2 = false.
Proof.
  intros Hm.
  assert (Hsend : forall (times : alert_times) msg ty w,
            send_slack_alert cfg times msg ty w = (Suppressed true, times)).
  { intros times msg ty w. unfold send_slack_alert. now rewrite Hm, orb_true_r. }
  assert (Hstep : forall st0 r ws,
            last_alert_times (process_record cfg st0 r ws).1.1 = last_alert_times st0 /\
            failover_sent (process_record cfg st0 r ws).1.2 = false /\
            error_rate_sent (process_record cfg st0 r ws).2 = false).
  { intros st0 r ws. unfold process_record, check_failover, check_error_rate.
    destruct (String.eqb (pool r) "unknown");
      [| destruct (last_pool st0) as [p|];
         [destruct (negb (String.eqb (pool r) p)); [rewrite Hsend |] |]];
      simpl;
      (destruct (length _ <? WINDOW_SIZE cfg)%nat; [now repeat split |]);
      (destruct (length _ =? 0)%nat; [now repeat split |]);
      (destruct (PrimFloat.ltb _ _); [rewrite Hsend |]); now repeat split. }
  revert st. induction inputs as [|[r ws] inputs IH]; intros st.
  - split; [reflexivity | intros i o H; discriminate].
  - simpl. destruct (Hstep st r ws) as (Ht & Hf & He).
    destruct (process_record cfg st r ws) as [[st' obs] res]. simpl in Ht, Hf, He.
    destruct res as [e | status0].
    + split; [exact Ht |]. intros [|i] o H; [| discriminate].
      injection H as <-. now split.
    + destruct (IH st') as [IHt IHo].
      destruct (process_records cfg st' inputs) as [st'' out]. simpl in *.
      split; [congruence |]. intros [|i] o H.
      * injection H as <-. now split.
      * now apply (IHo i).
Qed.

(** A failover and a full window of errors in maintenance mode. *)
Lemma maintenance_run_records_nothing_witness :
  let cfg := {| SLACK_WEBHOOK_URL := Some "https://hooks.slack.com/services/T0/B0/X0";
                ERROR_RATE_THRESHOLD := 2; WINDOW_SIZE := 2;
                ALERT_COOLDOWN_SEC := 300; MAINTENANCE_MODE := true |} in
  let ws := Worlds (World 0 (Delivered 0)) (World 0 (Delivered 0)) in
  let inputs := [(example_record "blue" 500, ws); (example_record "green" 500, ws)] in
  MAINTENANCE_MODE cfg = true /\
  last_alert_times (process_records cfg initial_state inputs).1 = initial_alert_times /\
  last_pool (process_records cfg initial_state inputs).1 = Some "green" /\
  map (fun o => is_failover o.1) (process_records cfg initial_state inputs).2
  = [false; true].
Proof.
  intros cfg ws inputs.
  destruct (maintenance_run_records_nothing cfg inputs initial_state eq_refl) as [Ht _].
  split; [reflexivity |]. split; [exact Ht |]. split; reflexivity.
Defined.
